(** * sorry-tracker: a shallow embedding of [issues.py]

    The script walks a Lean project, records every line that holds the
    marker [sorry], gathers the text of the imported files, and opens one
    GitHub issue per record through the [gh] command line tool.

    Python values are modelled as follows.
    - A [str] is a list of Unicode code points ([pystr]); [len] is [length].
    - A [dict] with string keys is a [gmap pystr _].
    - The records appended to [sorries_to_process] are [sorry_record]s.
    - The file system and the [gh] tool are external: their answers are
      fields of [filesystem] and of [gh_tool].
    - [print] appends an [event] to a log; exceptions are values of [exn]
      carried by the [result] of a computation. *)

From Stdlib Require Import NArith ZArith String Ascii List Lia.
From Stdlib Require Import Strings.Byte.
From Stdlib Require Import DecimalString DecimalNat.
From stdpp Require Import gmap list.

Open Scope N_scope.

(** ** Python strings *)

Module PyStr.

Definition pystr := list N.

(** An ASCII literal as a Python string. *)
Definition str (s : string) : pystr :=
  List.map N_of_ascii (list_ascii_of_string s).

(** [str.isspace] on one code point, which is also the class [\s] of a
    [re] pattern on [str]: CPython's [_PyUnicode_IsWhitespace]. *)
Definition isspace (c : N) : bool :=
  ((0x09 <=? c) && (c <=? 0x0D)) || ((0x1C <=? c) && (c <=? 0x20))
  || (c =? 0x85) || (c =? 0xA0) || (c =? 0x1680)
  || ((0x2000 <=? c) && (c <=? 0x200A))
  || (c =? 0x2028) || (c =? 0x2029) || (c =? 0x202F) || (c =? 0x205F)
  || (c =? 0x3000).

(** [s.startswith(p)] *)
Fixpoint startswith (s p : pystr) : bool :=
  match p, s with
  | [], _ => true
  | a :: p', b :: s' => (a =? b) && startswith s' p'
  | _ :: _, [] => false
  end.

(** [s.endswith(p)] *)
Definition endswith (s p : pystr) : bool := startswith (rev s) (rev p).

(** [sub in s] *)
Fixpoint str_in (sub s : pystr) : bool :=
  startswith s sub
  || match s with
     | [] => false
     | _ :: s' => str_in sub s'
     end.

(** [s.find(sub)]: the lowest index where [sub] occurs, or [-1]. *)
Fixpoint find_from (sub s : pystr) (i : Z) : Z :=
  if startswith s sub then i
  else match s with
       | [] => (-1)%Z
       | _ :: s' => find_from sub s' (i + 1)%Z
       end.

Definition find (s sub : pystr) : Z := find_from sub s 0%Z.

(** [s.strip()] *)
Fixpoint lstrip (s : pystr) : pystr :=
  match s with
  | c :: r => if isspace c then lstrip r else s
  | [] => []
  end.

Definition rstrip (s : pystr) : pystr := rev (lstrip (rev s)).

Definition strip (s : pystr) : pystr := rstrip (lstrip s).

(** [s.split(sep)] for a separator of one character. *)
Fixpoint split (sep : N) (s : pystr) : list pystr :=
  match s with
  | [] => [[]]
  | c :: r =>
      if c =? sep then [] :: split sep r
      else match split sep r with
           | [] => [[c]]
           | p :: ps => (c :: p) :: ps
           end
  end.

(** The line boundaries of [str.splitlines] other than [\r] and [\r\n]. *)
Definition is_linebreak (c : N) : bool :=
  (c =? 0x0A) || (c =? 0x0B) || (c =? 0x0C) || (c =? 0x1C) || (c =? 0x1D)
  || (c =? 0x1E) || (c =? 0x85) || (c =? 0x2028) || (c =? 0x2029).

(** [s.splitlines()] *)
Fixpoint splitlines (s : pystr) : list pystr :=
  match s with
  | [] => []
  | c :: r =>
      if c =? 0x0D then
        match r with
        | d :: r' => if d =? 0x0A then [] :: splitlines r'
                     else [] :: splitlines r
        | [] => [[]]
        end
      else if is_linebreak c then [] :: splitlines r
      else match splitlines r with
           | [] => [[c]]
           | l :: ls => (c :: l) :: ls
           end
  end.

(** [str.upper] and [str.lower] on one code point. Exact on ASCII; a code
    point above 127 is left as it is, where Python would apply the Unicode
    case tables. *)
Definition upper_char (c : N) : N :=
  if (0x61 <=? c) && (c <=? 0x7A) then c - 0x20 else c.

Definition lower_char (c : N) : N :=
  if (0x41 <=? c) && (c <=? 0x5A) then c + 0x20 else c.

(** [s.lower()] *)
Definition lower (s : pystr) : pystr := List.map lower_char s.

(** [s.capitalize()]: first character upper case, the others lower case. *)
Definition capitalize (s : pystr) : pystr :=
  match s with
  | [] => []
  | c :: r => upper_char c :: lower r
  end.

(** ["".join(parts)] *)
Definition join_empty (parts : list pystr) : pystr := List.concat parts.

(** [sep.join(parts)] *)
Fixpoint join_with (sep : pystr) (parts : list pystr) : pystr :=
  match parts with
  | [] => []
  | [p] => p
  | p :: ps => p ++ sep ++ join_with sep ps
  end.

(** [str(n)] for a natural number. *)
Definition str_of_nat (n : nat) : pystr :=
  str (NilEmpty.string_of_uint (Nat.to_uint n)).

(** Lexicographic order on code points, the order of [sorted] on a list of
    [str]. *)
Fixpoint str_leb (a b : pystr) : bool :=
  match a, b with
  | [], _ => true
  | _ :: _, [] => false
  | x :: a', y :: b' => (x <? y) || ((x =? y) && str_leb a' b')
  end.

Fixpoint insert_sorted (x : pystr) (l : list pystr) : list pystr :=
  match l with
  | [] => [x]
  | y :: l' => if str_leb x y then x :: l else y :: insert_sorted x l'
  end.

(** [sorted(l)] *)
Definition sorted (l : list pystr) : list pystr :=
  foldr insert_sorted [] l.

(** [os.path.join(a, *p)] of [posixpath]. *)
Definition path_join2 (path b : pystr) : pystr :=
  if startswith b (str "/") then b
  else if (match path with [] => true | _ => false end)
          || endswith path (str "/")
       then path ++ b
       else path ++ str "/" ++ b.

Definition os_path_join (a : pystr) (p : list pystr) : pystr :=
  foldl path_join2 a p.

End PyStr.
Export PyStr.

(** ** The regular expressions of the script

    A pattern is run as a backtracking matcher: each piece maps the text
    still to be matched to the list of texts left after it, the first
    choice of Python's [re] first. A match exists when the list is not
    empty, and the match Python reports is the head. *)

Module Regex.

(** A literal. *)
Definition lit (w s : pystr) : list pystr :=
  if startswith s w then [drop (length w) s] else [].

(** [(w1|w2|...)] over literals. *)
Definition alt (ws : list pystr) (s : pystr) : list pystr :=
  w ← ws; lit w s.

(** [p?] (greedy). *)
Definition opt (p : pystr → list pystr) (s : pystr) : list pystr :=
  p s ++ [s].

(** [c*] (greedy) for a character class. *)
Fixpoint star (cls : N → bool) (s : pystr) : list pystr :=
  match s with
  | c :: r => if cls c then star cls r ++ [s] else [s]
  | [] => [[]]
  end.

(** [c+] (greedy). *)
Definition plus (cls : N → bool) (s : pystr) : list pystr :=
  match s with
  | c :: r => if cls c then star cls r else []
  | [] => []
  end.

(** A starred class inside a group, with the text of the group. *)
Fixpoint star_group (cls : N → bool) (s : pystr) : list (pystr * pystr) :=
  match s with
  | c :: r =>
      if cls c
      then List.map (λ gt, (c :: gt.1, gt.2)) (star_group cls r) ++ [([], s)]
      else [([], s)]
  | [] => [([], [])]
  end.

(** A class repeated once or more inside a group, with the text of the
    group. *)
Definition plus_group (cls : N → bool) (s : pystr) : list (pystr * pystr) :=
  match s with
  | c :: r =>
      if cls c then List.map (λ gt, (c :: gt.1, gt.2)) (star_group cls r)
      else []
  | [] => []
  end.

(** [.*?] (lazy); [.] is every character but the newline. *)
Fixpoint lazy_dotstar (s : pystr) : list pystr :=
  s :: match s with
       | c :: r => if c =? 0x0A then [] else lazy_dotstar r
       | [] => []
       end.

Definition decl_keywords : list pystr :=
  [str "theorem"; str "lemma"; str "def"; str "instance"; str "example";
   str "opaque"; str "abbrev"; str "inductive"; str "structure"].

(** [decl_regex.search(line)] as a truth value. The pattern starts with
    [^] and is compiled without [re.MULTILINE], so a match can only start
    at the first character. *)
Definition decl_regex_search (line : pystr) : bool :=
  match
    s1 ← opt (alt [str "private"; str "protected"]) line;
    s2 ← star isspace s1;
    s3 ← opt (lit (str "noncomputable")) s2;
    s4 ← star isspace s3;
    s5 ← alt decl_keywords s4;
    plus isspace s5
  with
  | [] => false
  | _ :: _ => true
  end.

(** The class [[^\s\(\{:]]. *)
Definition name_char (c : N) : bool :=
  negb (isspace c || (c =? 0x28) || (c =? 0x7B) || (c =? 0x3A)).

(** [name_extract_regex.match(header)]: group 1 of the match, if any. *)
Definition name_extract_regex_match (header : pystr) : option pystr :=
  head (s1 ← lazy_dotstar header;
        s2 ← alt decl_keywords s1;
        s3 ← plus isspace s2;
        gt ← plus_group name_char s3;
        [gt.1]).

(** [import_regex.match(line)]: group 1 of the match, if any. *)
Definition import_regex_match (line : pystr) : option pystr :=
  head (s1 ← lit (str "import") line;
        s2 ← plus isspace s1;
        gt ← plus_group (λ c, negb (isspace c)) s2;
        [gt.1]).

End Regex.
Export Regex.

(** ** Effects: exceptions, printed messages, results *)

Module Effects.

(** The exceptions the script can meet. *)
Inductive exn :=
| OSError
| UnicodeDecodeError
| CalledProcessError (returncode : Z) (stderr : pystr)
| SystemExit (code : Z).

(** [isinstance(e, Exception)]: [SystemExit] derives from [BaseException]
    only, so [except Exception] lets it through. *)
Definition is_Exception (e : exn) : bool :=
  match e with
  | SystemExit _ => false
  | _ => true
  end.

(** What the script prints, one constructor per [print] call, with the
    values formatted into the message. [Call_find_and_read_imports] is not
    printed: it marks each entry into [find_and_read_imports]. *)
Inductive event :=
| Skipping_large_import (import_path_str : pystr)
| Could_not_read_import_file (full_path : pystr) (e : exn)
| Performing_web_search (import_path_str : pystr)
| Could_not_find_imported_file (import_path_str : pystr)
| Error_running_command (command : list pystr) (stderr : pystr)
| Issue_already_exists (title : pystr)
| Error_checking_for_existing_issues (stderr : pystr)
| Successfully_created_issue (title : pystr)
| Failed_to_create_issue (title : pystr) (stderr : pystr)
| Error_processing (file_path : pystr) (e : exn)
| Call_find_and_read_imports (file_content repo_root : pystr)
    (web_search : bool).

Inductive result (A : Type) :=
| Ok (a : A)
| Raise (e : exn).
Arguments Ok {A} a.
Arguments Raise {A} e.

(** A computation that prints and may raise: the messages printed, then
    the value returned or the exception raised. *)
Definition W (A : Type) : Type := list event * result A.

Definition ret {A} (a : A) : W A := ([], Ok a).

Definition raise {A} (e : exn) : W A := ([], Raise e).

Definition emit (ev : event) : W unit := ([ev], Ok tt).

Definition bind {A B} (m : W A) (k : A → W B) : W B :=
  match m.2 with
  | Ok a => let w := k a in (m.1 ++ w.1, w.2)
  | Raise e => (m.1, Raise e)
  end.

(** [try: m except Exception as e: h e] *)
Definition try_except_Exception {A} (m : W A) (h : exn → W A) : W A :=
  match m.2 with
  | Ok a => m
  | Raise e =>
      if is_Exception e then let w := h e in (m.1 ++ w.1, w.2) else m
  end.

(** A [for] loop that threads a value through its body. *)
Fixpoint for_each {A S} (body : S → A → W S) (s : S) (l : list A) : W S :=
  match l with
  | [] => ret s
  | a :: l' => bind (body s a) (λ s', for_each body s' l')
  end.

End Effects.
Export Effects.

(** ** The file system *)

Module FS.

(** A directory as [os.walk] lists it: its name in its parent, its
    sub-directories and its plain files, each in the order of
    [os.scandir]. A directory that cannot be listed yields nothing in
    [os.walk], which is what an empty directory does to the script. *)
#[warnings="-register-all"]
Inductive dirtree :=
| Dir (name : pystr) (subdirs : list dirtree) (files : list pystr).

Record filesystem := {
  (** the tree [os.walk(top)] traverses *)
  os_walk_tree : pystr → dirtree;
  (** [os.path.isdir] *)
  os_path_isdir : pystr → bool;
  (** [os.listdir]; [None] when it raises [OSError] *)
  os_listdir : pystr → option (list pystr);
  (** [os.path.exists] *)
  os_path_exists : pystr → bool;
  (** the bytes of a file; [None] when [open] or [read] raises [OSError] *)
  file_bytes : pystr → option (list byte)
}.

Definition is_continuation (b : N) : bool := (0x80 <=? b) && (b <=? 0xBF).

(** The strict UTF-8 decoder of [open(..., encoding='utf-8')]: shortest
    form only, no surrogates, nothing above U+10FFFF. *)
Fixpoint utf8_decode (bs : list byte) : option pystr :=
  match bs with
  | [] => Some []
  | x0 :: r0 =>
      let b0 := Byte.to_N x0 in
      if b0 <? 0x80 then cons b0 <$> utf8_decode r0
      else if (0xC2 <=? b0) && (b0 <=? 0xDF) then
        match r0 with
        | x1 :: r1 =>
            let b1 := Byte.to_N x1 in
            if is_continuation b1
            then cons ((b0 - 0xC0) * 64 + (b1 - 0x80)) <$> utf8_decode r1
            else None
        | _ => None
        end
      else if (0xE0 <=? b0) && (b0 <=? 0xEF) then
        match r0 with
        | x1 :: x2 :: r2 =>
            let b1 := Byte.to_N x1 in
            let b2 := Byte.to_N x2 in
            if is_continuation b1 && is_continuation b2
               && negb ((b0 =? 0xE0) && (b1 <? 0xA0))
               && negb ((b0 =? 0xED) && (0x9F <? b1))
            then cons ((b0 - 0xE0) * 4096 + (b1 - 0x80) * 64 + (b2 - 0x80))
                   <$> utf8_decode r2
            else None
        | _ => None
        end
      else if (0xF0 <=? b0) && (b0 <=? 0xF4) then
        match r0 with
        | x1 :: x2 :: x3 :: r3 =>
            let b1 := Byte.to_N x1 in
            let b2 := Byte.to_N x2 in
            let b3 := Byte.to_N x3 in
            if is_continuation b1 && is_continuation b2 && is_continuation b3
               && negb ((b0 =? 0xF0) && (b1 <? 0x90))
               && negb ((b0 =? 0xF4) && (0x8F <? b1))
            then cons ((b0 - 0xF0) * 262144 + (b1 - 0x80) * 4096
                       + (b2 - 0x80) * 64 + (b3 - 0x80))
                   <$> utf8_decode r3
            else None
        | _ => None
        end
      else None
  end.

(** Universal newlines, the default of a file opened in text mode: [\r\n]
    and a lone [\r] are read as [\n]. *)
Fixpoint universal_newlines (s : pystr) : pystr :=
  match s with
  | [] => []
  | c :: r =>
      if c =? 0x0D then
        match r with
        | d :: r' => if d =? 0x0A then 0x0A :: universal_newlines r'
                     else 0x0A :: universal_newlines r
        | [] => [0x0A]
        end
      else c :: universal_newlines r
  end.

(** [open(path, 'r', encoding='utf-8').read()] *)
Definition read_text (fs : filesystem) (path : pystr) : W pystr :=
  match file_bytes fs path with
  | None => raise OSError
  | Some bs =>
      match utf8_decode bs with
      | None => raise UnicodeDecodeError
      | Some s => ret (universal_newlines s)
      end
  end.

(** The lines of a text, each with its [\n] when it has one. *)
Fixpoint keepends (s : pystr) : list pystr :=
  match s with
  | [] => []
  | c :: r =>
      if c =? 0x0A then [c] :: keepends r
      else match keepends r with
           | [] => [[c]]
           | l :: ls => (c :: l) :: ls
           end
  end.

(** [open(path, 'r', encoding='utf-8').readlines()] *)
Definition readlines (fs : filesystem) (path : pystr) : W (list pystr) :=
  bind (read_text fs path) (λ s, ret (keepends s)).

(** The size of the file on disk, in bytes. *)
Definition byte_size (fs : filesystem) (path : pystr) : option nat :=
  length <$> file_bytes fs path.

End FS.
Export FS.

(** Sequencing for computations in [W]. *)
Module WNotation.
Notation "'do' x <- m ; k" := (Effects.bind m (λ x, k))
  (at level 10, x name, m at level 100, k at level 200,
   format "'[v' 'do'  x  <-  m ; '/' k ']'").
Notation "'exec' m ; k" := (Effects.bind m (λ _, k))
  (at level 10, m at level 100, k at level 200,
   format "'[v' 'exec'  m ; '/' k ']'").
End WNotation.

(** ** The import resolver: [find_and_read_imports] *)

Module Resolver.
Import WNotation.

Definition MAX_IMPORT_FILE_SIZE : Z := 25000.

(** Python's truth value of [full_path], which is [None] or a [str]. *)
Definition truthy (full_path : option pystr) : bool :=
  match full_path with
  | Some (_ :: _) => true
  | _ => false
  end.

Definition lake_packages_path (repo_root : pystr) : pystr :=
  os_path_join repo_root [str ".lake"; str "packages"].

(** Lines 58 to 63: the map from the capitalized name of each package to
    its directory. *)
Definition build_package_map (fs : filesystem) (repo_root : pystr)
  : W (gmap pystr pystr) :=
  if os_path_isdir fs (lake_packages_path repo_root) then
    match os_listdir fs (lake_packages_path repo_root) with
    | None => raise OSError
    | Some names =>
        ret (foldl (λ (package_map : gmap pystr pystr) package_name,
                      <[capitalize package_name :=
                          os_path_join (lake_packages_path repo_root)
                            [package_name]]> package_map)
               ∅ names)
    end
  else ret ∅.

(** Line 73. [split] never returns the empty list, so the first case is
    never taken. *)
Definition relative_path_of (import_parts : list pystr) : pystr :=
  match import_parts with
  | [] => []
  | p :: ps => os_path_join p ps ++ str ".lean"
  end.

(** Lines 77 to 82: the dependency search. *)
Definition dependency_path (fs : filesystem) (package_map : gmap pystr pystr)
    (import_parts : list pystr) (relative_path : pystr) : option pystr :=
  match import_parts with
  | p0 :: _ =>
      match package_map !! p0 with
      | Some package_root =>
          let potential_path := os_path_join package_root [relative_path] in
          if os_path_exists fs potential_path then Some potential_path
          else None
      | None => None
      end
  | [] => None
  end.

(** Lines 70 to 94: the value of [full_path] for one import. *)
Definition resolve_import (fs : filesystem) (package_map : gmap pystr pystr)
    (repo_root import_path_str : pystr) : option pystr :=
  let import_parts := split 0x2E import_path_str in
  let relative_path := relative_path_of import_parts in
  let full_path := dependency_path fs package_map import_parts relative_path in
  if truthy full_path then full_path
  else
    let potential_path_root := os_path_join repo_root [relative_path] in
    if os_path_exists fs potential_path_root then Some potential_path_root
    else
      let potential_path_src :=
        os_path_join repo_root [str "src"; relative_path] in
      if os_path_exists fs potential_path_src then Some potential_path_src
      else full_path.

(** The text appended at line 101. *)
Definition content_entry (import_path_str content : pystr) : pystr :=
  [0x0A] ++ str "---" ++ [0x0A] ++ str "-- Content from: " ++ import_path_str
  ++ [0x0A] ++ str "---" ++ [0x0A] ++ content.

(** The text appended at line 114. *)
Definition web_entry (import_path_str : pystr) : pystr :=
  [0x0A] ++ str "---" ++ [0x0A] ++ str "-- Web search result for: "
  ++ import_path_str ++ [0x0A] ++ str "---" ++ [0x0A]
  ++ str "Content from web search for " ++ import_path_str.

(** Lines 97 to 105: read the resolved file and keep it when short. *)
Definition read_import (fs : filesystem) (imported_content : list pystr)
    (import_path_str full_path : pystr) : W (list pystr) :=
  try_except_Exception
    (do content <- read_text fs full_path;
     if (Z.of_nat (length content) <? MAX_IMPORT_FILE_SIZE)%Z
     then ret (imported_content ++ [content_entry import_path_str content])
     else exec emit (Skipping_large_import import_path_str);
          ret imported_content)
    (λ e, exec emit (Could_not_read_import_file full_path e);
          ret imported_content).

(** Lines 66 to 118: the body of the loop over the lines of the file. *)
Definition import_line (fs : filesystem) (package_map : gmap pystr pystr)
    (repo_root : pystr) (web_search : bool)
    (imported_content : list pystr) (line : pystr) : W (list pystr) :=
  match import_regex_match line with
  | None => ret imported_content
  | Some import_path_str =>
      let full_path := resolve_import fs package_map repo_root import_path_str in
      if truthy full_path then
        read_import fs imported_content import_path_str (default [] full_path)
      else if web_search then
        exec emit (Performing_web_search import_path_str);
        ret (imported_content ++ [web_entry import_path_str])
      else
        exec emit (Could_not_find_imported_file import_path_str);
        ret imported_content
  end.

Definition find_and_read_imports (fs : filesystem)
    (file_content repo_root : pystr) (web_search : bool) : W pystr :=
  exec emit (Call_find_and_read_imports file_content repo_root web_search);
  do package_map <- build_package_map fs repo_root;
  do imported_content <-
    for_each (import_line fs package_map repo_root web_search) []
      (splitlines file_content);
  ret (join_empty imported_content).

End Resolver.
Export Resolver.

(** ** The scanner and the tree walker: [find_all_sorries] *)

Module Walker.
Import WNotation.

(** One entry of [sorries_to_process]. *)
Record sorry_record := {
  file_path : pystr;
  line_num : nat;
  decl_name : pystr;
  snippet : pystr;
  full_content : pystr;
  imports_context : pystr
}.

(** [l[a:b]] for indices that are not negative. *)
Definition slice {A} (l : list A) (a b : nat) : list A := drop a (take b l).

(** Lines 270 to 273: the occurrence is skipped as commentary. *)
Definition in_trailing_comment (line : pystr) : bool :=
  let comment_pos := find line (str "--") in
  let sorry_pos := find line (str "sorry") in
  negb (comment_pos =? -1)%Z && (comment_pos <? sorry_pos)%Z.

(** Lines 262 to 289: the loop over the lines of one file. [rest] holds the
    lines from index [i] on. *)
Fixpoint scan_lines (fs : filesystem) (target_repo_path : pystr)
    (web_search : bool) (file_path : pystr) (lines : list pystr)
    (full_file_content : pystr)
    (rest : list pystr) (i : nat)
    (current_decl_header : pystr) (current_decl_linenum : nat)
    (sorries_to_process : list sorry_record) : W (list sorry_record) :=
  match rest with
  | [] => ret sorries_to_process
  | line :: rest' =>
      let line_num := i + 1 in
      let current_decl_header :=
        if decl_regex_search line then strip line else current_decl_header in
      let current_decl_linenum :=
        if decl_regex_search line then line_num else current_decl_linenum in
      if str_in (str "sorry") line then
        if in_trailing_comment line then
          scan_lines fs target_repo_path web_search file_path lines
            full_file_content rest' (S i)
            current_decl_header current_decl_linenum sorries_to_process
        else
          let decl_name_only :=
            default [] (name_extract_regex_match current_decl_header) in
          let start_line :=
            if 0 <? current_decl_linenum then current_decl_linenum
            else line_num in
          let full_snippet :=
            join_empty (slice lines (start_line - 1) line_num) in
          do imports_context <-
            find_and_read_imports fs full_file_content target_repo_path
              web_search;
          scan_lines fs target_repo_path web_search file_path lines
            full_file_content rest' (S i)
            current_decl_header current_decl_linenum
            (sorries_to_process ++
               [{| file_path := file_path;
                   line_num := line_num;
                   decl_name := decl_name_only;
                   snippet := full_snippet;
                   full_content := full_file_content;
                   imports_context := imports_context |}])
      else
        scan_lines fs target_repo_path web_search file_path lines
          full_file_content rest' (S i)
          current_decl_header current_decl_linenum sorries_to_process
  end%nat.

(** Lines 250 to 289: one file of a directory. *)
Definition scan_file (fs : filesystem) (target_repo_path : pystr)
    (web_search : bool) (root : pystr)
    (sorries_to_process : list sorry_record) (file : pystr)
  : W (list sorry_record) :=
  if negb (endswith file (str ".lean")) then ret sorries_to_process
  else
    let file_path := os_path_join root [file] in
    do lines <- readlines fs file_path;
    let full_file_content := join_empty lines in
    scan_lines fs target_repo_path web_search file_path lines
      full_file_content lines 0 [] 0 sorries_to_process.

(** Line 247: the directories [os.walk] may descend into. *)
Definition kept_dir (d : pystr) : bool :=
  negb (bool_decide (d ∈ [str ".lake"; str "build"])).

(** [os.walk(top)], top down, with the directories of line 247 removed
    before the descent: the pairs of [root] and [files]. *)
Fixpoint os_walk (top : pystr) (t : dirtree) : list (pystr * list pystr) :=
  match t with
  | Dir _ subdirs files =>
      (top, files)
      :: List.concat
           (List.map
              (λ d, match d with
                    | Dir name _ _ =>
                        if kept_dir name
                        then os_walk (os_path_join top [name]) d
                        else []
                    end)
              subdirs)
  end.

Definition find_all_sorries (fs : filesystem)
    (search_path target_repo_path : pystr) (web_search : bool)
  : W (list sorry_record) :=
  for_each
    (λ sorries_to_process (entry : pystr * list pystr),
       for_each (scan_file fs target_repo_path web_search entry.1)
         sorries_to_process (sorted entry.2))
    [] (os_walk search_path (os_walk_tree fs search_path)).

End Walker.
Export Walker.

(** ** The publisher: [run_command], [create_github_issue],
    [process_sorries] *)

Module Publisher.

(** How a child process ends: with a return code and its captured output,
    or not started at all ([subprocess.run] raises [OSError]). *)
Inductive proc_result :=
| Exited (returncode : Z) (stdout stderr : pystr)
| Failed_to_start.

Section Remote.

(** The record store behind the [gh] tool: its state, and what running a
    command does to it. *)
Context {store : Type}.
Variable gh : list pystr → store → store * proc_result.

(** [generate_ai_analysis], run by the worker threads: it sends a prompt
    to the analysis service and returns the stripped answer. Every
    exception inside it is caught there and turned into the empty string,
    so a call always returns a text. What the workers print is not part of
    the log. *)
Variable generate_ai_analysis :
  pystr → pystr → pystr → pystr → pystr → pystr.

(** The order in which [concurrent.futures.as_completed] hands the records
    back to the main thread. *)
Variable as_completed : list sorry_record → list sorry_record.

(** A computation that also talks to the record store. *)
Definition P (A : Type) : Type := store → store * W A.

Definition retP {A} (a : A) : P A := λ s, (s, ret a).

Definition liftW {A} (w : W A) : P A := λ s, (s, w).

Definition bindP {A B} (m : P A) (k : A → P B) : P B :=
  λ s, let '(s1, (evs1, r1)) := m s in
       match r1 with
       | Ok a => let '(s2, (evs2, r2)) := k a s1 in (s2, (evs1 ++ evs2, r2))
       | Raise e => (s1, (evs1, Raise e))
       end.

Local Notation "'do' x <- m ; k" := (bindP m (λ x, k))
  (at level 10, x name, m at level 100, k at level 200).
Local Notation "'exec' m ; k" := (bindP m (λ _, k))
  (at level 10, m at level 100, k at level 200).

(** [try: m except subprocess.CalledProcessError as e: h e] *)
Definition try_except_CalledProcessError {A} (m : P A)
    (h : Z → pystr → P A) : P A :=
  λ s, let '(s1, (evs1, r1)) := m s in
       match r1 with
       | Raise (CalledProcessError returncode stderr) =>
           let '(s2, (evs2, r2)) := h returncode stderr s1 in
           (s2, (evs1 ++ evs2, r2))
       | _ => (s1, (evs1, r1))
       end.

(** [try: m except Exception as exc: h exc] *)
Definition try_except_ExceptionP {A} (m : P A) (h : exn → P A) : P A :=
  λ s, let '(s1, (evs1, r1)) := m s in
       match r1 with
       | Raise e =>
           if is_Exception e
           then let '(s2, (evs2, r2)) := h e s1 in (s2, (evs1 ++ evs2, r2))
           else (s1, (evs1, r1))
       | Ok _ => (s1, (evs1, r1))
       end.

Fixpoint for_eachP {A} (body : A → P unit) (l : list A) : P unit :=
  match l with
  | [] => retP tt
  | a :: l' => exec body a; for_eachP body l'
  end.

(** [subprocess.run(command, check=True, capture_output=True, text=True)]:
    the captured standard output. *)
Definition subprocess_run (command : list pystr) : P pystr :=
  λ s, let '(s1, outcome) := gh command s in
       match outcome with
       | Exited returncode stdout stderr =>
           if (returncode =? 0)%Z then (s1, ret stdout)
           else (s1, raise (CalledProcessError returncode stderr))
       | Failed_to_start => (s1, raise OSError)
       end.

(** Lines 123 to 133. *)
Definition run_command (command : list pystr) : P pystr :=
  try_except_CalledProcessError
    (do stdout <- subprocess_run command; retP (strip stdout))
    (λ _ stderr,
       exec liftW (emit (Error_running_command command stderr));
       liftW (raise (SystemExit 1))).

(** Line 206. In the f-string the doubled braces around [title] are
    escapes: they stand for the two characters [{] and [}], and nothing is
    substituted between them. *)
Definition search_query (title repo_name : pystr) : pystr :=
  [0x22] ++ str "{title}" ++ [0x22] ++ str " in:title repo:" ++ repo_name
  ++ str " is:open".

(** Lines 205 to 217: whether the function returns at line 211. *)
Definition check_existing (title repo_name : pystr) : P bool :=
  try_except_CalledProcessError
    (do existing_issues <-
       run_command [str "gh"; str "issue"; str "list"; str "--search";
                    search_query title repo_name];
     match existing_issues with
     | _ :: _ => exec liftW (emit (Issue_already_exists title)); retP true
     | [] => retP false
     end)
    (λ _ stderr,
       if negb (str_in (str "no issues found") (lower stderr))
       then exec liftW (emit (Error_checking_for_existing_issues stderr));
            retP false
       else retP false).

(** Lines 201 to 230. *)
Definition create_github_issue (title body repo_name label : pystr)
  : P unit :=
  do skip <- check_existing title repo_name;
  if skip : bool then retP tt
  else
    try_except_CalledProcessError
      (exec subprocess_run
              [str "gh"; str "issue"; str "create"; str "--title"; title;
               str "--body"; body; str "--label"; label];
       liftW (emit (Successfully_created_issue title)))
      (λ _ stderr, liftW (emit (Failed_to_create_issue title stderr))).

(** Lines 304 to 306. *)
Definition issue_title (sorry_info : sorry_record) : pystr :=
  match decl_name sorry_info with
  | [] =>
      str "Proof obligation in `" ++ file_path sorry_info
      ++ str "` near line " ++ str_of_nat (line_num sorry_info)
  | _ :: _ =>
      str "Proof obligation for `" ++ decl_name sorry_info ++ str "` in `"
      ++ file_path sorry_info ++ str "`"
  end.

(** Lines 308 to 317. *)
Definition issue_body (sorry_info : sorry_record)
    (ai_analysis repo_name : pystr) : pystr :=
  let analysis_section :=
    match ai_analysis with
    | [] => []
    | _ :: _ =>
        [0x0A; 0x0A] ++ str "**" ++ [0x1F916] ++ str " AI Analysis:**"
        ++ [0x0A] ++ ai_analysis
    end in
  str "A proof in `" ++ file_path sorry_info ++ str "` contains a `sorry`."
  ++ analysis_section ++ [0x0A; 0x0A]
  ++ str "**Goal:** Replace the `sorry` with a complete proof."
  ++ [0x0A; 0x0A]
  ++ str "[Link to the sorry on GitHub](https://github.com/" ++ repo_name
  ++ str "/blob/master/" ++ file_path sorry_info ++ str "#L"
  ++ str_of_nat (line_num sorry_info) ++ str ")" ++ [0x0A; 0x0A]
  ++ str "**Code Snippet:**" ++ [0x0A] ++ str "```lean" ++ [0x0A]
  ++ snippet sorry_info ++ [0x0A] ++ str "```".

(** Lines 300 to 321: the body of the completion loop. *)
Definition publish_one (repo_name reference_context model label : pystr)
    (sorry_info : sorry_record) : P unit :=
  try_except_ExceptionP
    (let ai_analysis :=
       generate_ai_analysis (snippet sorry_info) (full_content sorry_info)
         model (imports_context sorry_info) reference_context in
     create_github_issue (issue_title sorry_info)
       (issue_body sorry_info ai_analysis repo_name) repo_name label)
    (λ exc, liftW (emit (Error_processing (file_path sorry_info) exc))).

(** Lines 292 to 321. *)
Definition process_sorries (sorries : list sorry_record)
    (repo_name reference_context model label : pystr) : P unit :=
  for_eachP (publish_one repo_name reference_context model label)
    (as_completed sorries).

(** Lines 386 to 398 of [main] when [--dry-run] is not given: scan, then
    publish. The messages [main] itself prints are left out. *)
Definition scan_and_publish (fs : filesystem)
    (search_path target_repo_path : pystr) (web_search : bool)
    (repo_name reference_context model label : pystr) : P unit :=
  do sorries_to_process <-
    liftW (find_all_sorries fs search_path target_repo_path web_search);
  match sorries_to_process with
  | [] => retP tt
  | _ :: _ =>
      process_sorries sorries_to_process repo_name reference_context model
        label
  end.

End Remote.

End Publisher.
Export Publisher.

(** ** Notions used to state the properties *)

Module Props.

(** [sub] occurs in [s] at index [k]. *)
Definition occurs_at (sub s : pystr) (k : nat) : Prop :=
  startswith (drop k s) sub = true.

(** A line for which the loop of [find_all_sorries] appends a record. *)
Definition qualifies (line : pystr) : bool :=
  str_in (str "sorry") line && negb (in_trailing_comment line).

(** The values of [current_decl_header] and [current_decl_linenum] once
    the lines [pre] have gone through lines 265 to 267; [rp] is [pre]
    from its last line to its first. *)
Fixpoint decl_context_rev (rp : list pystr) : pystr * nat :=
  match rp with
  | [] => ([], 0%nat)
  | line :: rp' =>
      if decl_regex_search line then (strip line, S (length rp'))
      else decl_context_rev rp'
  end.

Definition decl_context (pre : list pystr) : pystr * nat :=
  decl_context_rev (rev pre).

(** The record appended for the line of index [j]. *)
Definition record_at (file_path : pystr) (lines : list pystr)
    (full_file_content imports_context : pystr) (j : nat) : sorry_record :=
  let ctx := decl_context (take (S j) lines) in
  {| file_path := file_path;
     line_num := S j;
     decl_name := default [] (name_extract_regex_match ctx.1);
     snippet :=
       join_empty
         (slice lines ((if (0 <? ctx.2)%nat then ctx.2 else S j) - 1) (S j));
     full_content := full_file_content;
     imports_context := imports_context |}.

(** The index of the first line of the snippet of that record. *)
Definition snippet_start (lines : list pystr) (j : nat) : nat :=
  (if (0 <? (decl_context (take (S j) lines)).2)%nat
   then (decl_context (take (S j) lines)).2 else S j) - 1.

Definition record_if (file_path : pystr) (lines : list pystr)
    (full_file_content imports_context : pystr) (j : nat)
  : option sorry_record :=
  line ← lines !! j;
  if qualifies line
  then Some (record_at file_path lines full_file_content imports_context j)
  else None.

(** The first segment of an import path and the relative path of line 73. *)
Definition first_segment (import_path_str : pystr) : pystr :=
  default [] (head (split 0x2E import_path_str)).

Definition relative_path (import_path_str : pystr) : pystr :=
  relative_path_of (split 0x2E import_path_str).

(** The directory of the packages can be listed whenever it is there. *)
Definition packages_listable (fs : filesystem) (repo_root : pystr) : Prop :=
  os_path_isdir fs (lake_packages_path repo_root) = true →
  is_Some (os_listdir fs (lake_packages_path repo_root)).

Definition is_resolver_call (ev : event) : bool :=
  match ev with
  | Call_find_and_read_imports _ _ _ => true
  | _ => false
  end.

(** How many times [find_and_read_imports] was entered. *)
Definition resolver_calls (evs : list event) : nat :=
  length (List.filter is_resolver_call evs).


(** The files [find_all_sorries] opens, as pairs of directory and name. *)
Definition eligible (fs : filesystem) (search_path root file : pystr)
  : Prop :=
  ∃ files, (root, files) ∈ os_walk search_path (os_walk_tree fs search_path)
           ∧ file ∈ files ∧ endswith file (str ".lean") = true.

End Props.
Export Props.

(** ** Reference data: a record store and some file systems *)

Module Reference.

Definition ascii_bytes (s : string) : list byte := list_byte_of_string s.

(** An open issue of the record store. *)
Record issue := {
  title_of : pystr;
  body_of : pystr;
  label_of : pystr
}.

(** The text before the first double quote. *)
Fixpoint until_quote (s : pystr) : pystr :=
  match s with
  | c :: r => if c =? 0x22 then [] else c :: until_quote r
  | [] => []
  end.

(** The phrase between the first pair of double quotes of a query. *)
Definition quoted_phrase (query : pystr) : pystr :=
  match query with
  | c :: r => if c =? 0x22 then until_quote r else []
  | [] => []
  end.

(** A record store that answers as the publisher expects of GitHub:
    [gh issue list --search] prints one line per open issue whose title
    holds the quoted phrase of the query, and [gh issue create] adds the
    issue. *)
Definition gh_reference (command : list pystr) (issues : list issue)
  : list issue * proc_result :=
  match command with
  | [a; b; c; d; query] =>
      if bool_decide ([a; b; c; d]
                      = [str "gh"; str "issue"; str "list"; str "--search"])
      then (issues,
            Exited 0
              (join_empty
                 (List.map (λ i, title_of i ++ [0x0A])
                    (List.filter
                       (λ i, str_in (quoted_phrase query) (title_of i))
                       issues)))
              [])
      else (issues, Exited 2 [] (str "unknown command"))
  | [a; b; c; d; title; e; body; f; label] =>
      if bool_decide ([a; b; c; d; e; f]
                      = [str "gh"; str "issue"; str "create"; str "--title";
                         str "--body"; str "--label"])
      then (issues ++ [{| title_of := title; body_of := body;
                          label_of := label |}],
            Exited 0 (str "https://github.com/o/r/issues/1") [])
      else (issues, Exited 2 [] (str "unknown command"))
  | _ => (issues, Exited 2 [] (str "unknown command"))
  end.

(** The same store when the search fails, as it does without network. *)
Definition gh_search_down (command : list pystr) (issues : list issue)
  : list issue * proc_result :=
  match command with
  | [_; _; c; _; _] =>
      if bool_decide (c = str "list")
      then (issues, Exited 1 [] (str "error connecting to api.github.com"))
      else gh_reference command issues
  | _ => gh_reference command issues
  end.

(** The same store when creating fails for one title. *)
Definition gh_create_fails_for (bad_title : pystr) (command : list pystr)
    (issues : list issue) : list issue * proc_result :=
  match command with
  | [_; _; c; _; title; _; _; _; _] =>
      if bool_decide (c = str "create") && bool_decide (title = bad_title)
      then (issues, Exited 1 [] (str "could not add label"))
      else gh_reference command issues
  | _ => gh_reference command issues
  end.

Definition no_analysis (_ _ _ _ _ : pystr) : pystr := [].

Definition in_submission_order (l : list sorry_record) : list sorry_record :=
  l.

Definition file_system (tree : dirtree) (packages : option (list pystr))
    (existing : list pystr) (contents : list (pystr * list byte))
  : filesystem :=
  {| os_walk_tree := λ _, tree;
     os_path_isdir :=
       λ p, bool_decide (p = str "/r/.lake/packages")
            && bool_decide (is_Some packages);
     os_listdir := λ _, packages;
     os_path_exists := λ p, bool_decide (p ∈ existing);
     file_bytes :=
       λ p, snd <$> List.find (λ e, bool_decide (e.1 = p)) contents |}.

(** [theorem foo], proved by [sorry]. *)
Definition foo_lean : list byte :=
  ascii_bytes "theorem foo (n : Nat) : n = n := by" ++ [x0a]
  ++ ascii_bytes "  sorry" ++ [x0a].

(** Two markers under one header. *)
Definition two_lean : list byte :=
  ascii_bytes "theorem bar : 1 = 1 ∧ 2 = 2 := by" ++ [x0a]
  ++ ascii_bytes "  constructor" ++ [x0a]
  ++ ascii_bytes "  · sorry" ++ [x0a]
  ++ ascii_bytes "  · sorry" ++ [x0a].

(** A header without a name. *)
Definition instance_lean : list byte :=
  ascii_bytes "instance : Inhabited Foo :=" ++ [x0a]
  ++ ascii_bytes "  sorry" ++ [x0a].

(** Markers in several positions. *)
Definition mixed_lean : list byte :=
  ascii_bytes "def f : Nat := sorry -- later" ++ [x0a]
  ++ ascii_bytes "-- no sorry here" ++ [x0a]
  ++ ascii_bytes "  exact sorryAx _" ++ [x0a].

(** Some lines of these files. *)
Definition comment_line : pystr := str "-- no sorry here" ++ [0x0A].
Definition sorryAx_line : pystr := str "  exact sorryAx _" ++ [0x0A].
Definition instance_line : pystr := str "instance : Inhabited Foo :=" ++ [0x0A].
Definition sorry_line : pystr := str "  sorry" ++ [0x0A].

(** The lines [readlines] returns for a file with these bytes. *)
Definition lines_of (bs : list byte) : list pystr :=
  keepends (universal_newlines (default [] (utf8_decode bs))).


(** A project with the single file [./Foo.lean]. *)
Definition fs_foo : filesystem :=
  file_system (Dir [] [] [str "Foo.lean"]) None []
    [(str "./Foo.lean", foo_lean)].

(** A project with the single file [./Two.lean]. *)
Definition fs_two : filesystem :=
  file_system (Dir [] [] [str "Two.lean"]) None []
    [(str "./Two.lean", two_lean)].


(** A project whose file [Mathlib/Data.lean] also exists in the package
    [mathlib]. *)
Definition fs_shadow : filesystem :=
  file_system (Dir [] [] []) (Some [str "mathlib"])
    [str "/r/.lake/packages/mathlib/Mathlib/Data.lean";
     str "/r/Mathlib/Data.lean"]
    [(str "/r/.lake/packages/mathlib/Mathlib/Data.lean",
      ascii_bytes "-- from the package");
     (str "/r/Mathlib/Data.lean", ascii_bytes "-- from the project")].

(** 12,500 times the letter e with an acute accent: 25,000 bytes. *)
Definition accents : list byte :=
  List.concat (repeat [xc3; xa9] (N.to_nat 12500)).

(** A project whose file [Big.lean] holds [accents]. *)
Definition fs_big : filesystem :=
  file_system (Dir [] [] []) None [str "/r/Big.lean"]
    [(str "/r/Big.lean", accents)].

(** One run of the pipeline on the project [/r], scanned from [.], for
    the repository [o/r], with the default model and label. *)
Definition pipeline_run (gh : list pystr → list issue → list issue * proc_result)
    (fs : filesystem) (issues : list issue) : list issue * W unit :=
  scan_and_publish gh no_analysis in_submission_order fs (str ".")
    (str "/r") false (str "o/r") [] (str "gemini-2.5-pro")
    (str "proof wanted") issues.

(** The title of the issue for [theorem foo] of [./Foo.lean]. *)
Definition foo_title : pystr :=
  str "Proof obligation for `foo` in `./Foo.lean`".

(** The command line of the search, which is the same for every title. *)
Definition search_command : list pystr :=
  [str "gh"; str "issue"; str "list"; str "--search";
   search_query [] (str "o/r")].

(** The search the publisher is meant to run for a title. *)
Definition title_search (title : pystr) : list pystr :=
  [str "gh"; str "issue"; str "list"; str "--search";
   [0x22] ++ title ++ [0x22] ++ str " in:title repo:o/r is:open"].

End Reference.
Export Reference.

(** ** The rest of the script: [fetch_urls_content], [check_dependencies],
    [main] *)

Module Main.

(** Line 43: the text that stands for one URL. *)
Definition simulated_content (url : pystr) : pystr :=
  str "--- Content from " ++ url ++ str " ---" ++ [0x0A]
  ++ str "[Simulated content for " ++ url ++ str "]".

(** Lines 29 to 48. Nothing in the [try] block can raise, so the handler
    of line 46 is left out; the message of line 34 is not part of the
    log. *)
Definition fetch_urls_content (urls : list pystr) : pystr :=
  match urls with
  | [] => []
  | _ :: _ => join_with [0x0A; 0x0A] (List.map simulated_content urls)
  end.

(** What [main] asks of the process environment: whether [shutil.which]
    finds a program, [os.path.abspath], and whether [os.chdir] succeeds
    (it raises [OSError] otherwise). The file system is the one seen once
    the working directory is the repository. *)
Record environment := {
  shutil_which : pystr → bool;
  os_path_abspath : pystr → pystr;
  os_chdir : pystr → bool
}.

(** The values [parse_args] returns; [reference_url] is the empty list
    when the option is not given. *)
Record arguments := {
  repo_path : pystr;
  dry_run : bool;
  label : pystr;
  model : pystr;
  reference_url : list pystr;
  web_search : bool;
  search_path : pystr
}.

(** Lines 18 to 27, without the messages. *)
Definition check_dependencies (env : environment) : W unit :=
  if negb (shutil_which env (str "gh")) then raise (SystemExit 1)
  else if negb (shutil_which env (str "gcloud")) then raise (SystemExit 1)
  else ret tt.

(** The command of line 377. *)
Definition repo_view_command : list pystr :=
  [str "gh"; str "repo"; str "view"; str "--json"; str "nameWithOwner";
   str "--jq"; str ".nameWithOwner"].

Section Remote.

Context {store : Type}.
Variable gh : list pystr → store → store * proc_result.
Variable generate_ai_analysis :
  pystr → pystr → pystr → pystr → pystr → pystr.
Variable as_completed : list sorry_record → list sorry_record.

Local Notation "'do' x <- m ; k" := (bindP m (λ x, k))
  (at level 10, x name, m at level 100, k at level 200).
Local Notation "'exec' m ; k" := (bindP m (λ _, k))
  (at level 10, m at level 100, k at level 200).

(** Lines 325 to 401, from the parsed arguments on. The messages [main]
    prints are not part of the log. *)
Definition main (env : environment) (fs : filesystem) (args : arguments)
  : P unit :=
  exec liftW (check_dependencies env);
  let target_repo_path := os_path_abspath env (repo_path args) in
  if negb (os_path_isdir fs target_repo_path)
  then liftW (raise (SystemExit 1))
  else
    exec liftW (if os_chdir env target_repo_path then ret tt
                else raise OSError);
    do repo_name <- run_command gh repo_view_command;
    let reference_context := fetch_urls_content (reference_url args) in
    do sorries_to_process <-
      liftW (find_all_sorries fs (search_path args) target_repo_path
               (web_search args));
    match sorries_to_process with
    | [] => retP tt
    | _ :: _ =>
        if dry_run args then retP tt
        else process_sorries gh generate_ai_analysis as_completed
               sorries_to_process repo_name reference_context (model args)
               (label args)
    end.

End Remote.

End Main.
Export Main.

(** ** More notions used to state the properties *)

Module MoreProps.

(** The places where lines 77 to 94 look for the file of an import, in
    the order in which they are tried. *)
Definition candidate_paths (package_map : gmap pystr pystr)
    (repo_root import_path_str : pystr) : list pystr :=
  match package_map !! first_segment import_path_str with
  | Some package_root =>
      [os_path_join package_root [relative_path import_path_str]]
  | None => []
  end
  ++ [os_path_join repo_root [relative_path import_path_str];
      os_path_join repo_root [str "src"; relative_path import_path_str]].

(** What one line of a file adds to [imported_content]. *)
Definition contribution (fs : filesystem) (package_map : gmap pystr pystr)
    (repo_root : pystr) (web_search : bool) (line : pystr) : list pystr :=
  match (import_line fs package_map repo_root web_search [] line).2 with
  | Ok entries => entries
  | Raise _ => []
  end.

Definition is_ascii_upper (c : N) : bool := (0x41 <=? c) && (c <=? 0x5A).

(** The search of line 208 and the creation of lines 220 to 225, as
    command lines. *)
Definition list_command (title repo_name : pystr) : list pystr :=
  [str "gh"; str "issue"; str "list"; str "--search";
   search_query title repo_name].


End MoreProps.
Export MoreProps.

(** ** More reference data *)

Module MoreReference.

(** A machine with both tools, on which every path is already absolute
    and every directory can be entered. *)
Definition env_ready : environment :=
  {| shutil_which := λ _, true;
     os_path_abspath := λ p, p;
     os_chdir := λ _, true |}.

(** The same machine without [gcloud]. *)
Definition env_no_gcloud : environment :=
  {| shutil_which := λ p, bool_decide (p = str "gh");
     os_path_abspath := λ p, p;
     os_chdir := λ _, true |}.

Definition args_default (dry : bool) : arguments :=
  {| repo_path := str "/r";
     dry_run := dry;
     label := str "proof wanted";
     model := str "gemini-2.5-pro";
     reference_url := [];
     web_search := false;
     search_path := str "." |}.

(** A project with a package named in mixed case. *)
Definition fs_mixed_case : filesystem :=
  file_system (Dir [] [] []) (Some [str "LeanSearchClient"])
    [str "/r/.lake/packages/LeanSearchClient/LeanSearchClient/Basic.lean"]
    [].

(** The file system [fs_foo] with [/r] as a directory. *)
Definition fs_repo : filesystem :=
  {| os_walk_tree := os_walk_tree fs_foo;
     os_path_isdir := λ p, bool_decide (p = str "/r");
     os_listdir := os_listdir fs_foo;
     os_path_exists := os_path_exists fs_foo;
     file_bytes := file_bytes fs_foo |}.

End MoreReference.
Export MoreReference.

(** * Properties *)

(** ** The model on small inputs *)

Example decl_regex_theorem :
  decl_regex_search (str "theorem foo (n : Nat) : n = n := by") = true.
Proof. reflexivity. Qed.

Example decl_regex_qualified :
  decl_regex_search (str "private noncomputable def f : Nat := 0") = true.
Proof. reflexivity. Qed.

Example decl_regex_not_at_start :
  decl_regex_search (str "-- theorem foo") = false.
Proof. reflexivity. Qed.

Example name_extract_foo :
  name_extract_regex_match (str "theorem foo (n : Nat) : n = n := by")
  = Some (str "foo").
Proof. reflexivity. Qed.

Example name_extract_nameless :
  name_extract_regex_match (str "instance : Inhabited Foo :=") = None.
Proof. reflexivity. Qed.

Example import_regex_mathlib :
  import_regex_match (str "import Mathlib.Data.Nat.Basic")
  = Some (str "Mathlib.Data.Nat.Basic").
Proof. reflexivity. Qed.

Example split_dots :
  split 0x2E (str "Mathlib.Data.Nat") = [str "Mathlib"; str "Data"; str "Nat"].
Proof. reflexivity. Qed.

Example join_parts :
  os_path_join (str "Mathlib") [str "Data"; str "Nat"] = str "Mathlib/Data/Nat".
Proof. reflexivity. Qed.

Example utf8_e_acute : utf8_decode [xc3; xa9] = Some [0xE9].
Proof. reflexivity. Qed.

Example utf8_nat_symbol : utf8_decode [xe2; x84; x95] = Some [0x2115].
Proof. reflexivity. Qed.

Example utf8_overlong : utf8_decode [xc0; x80] = None.
Proof. reflexivity. Qed.

Example keepends_two :
  keepends (str "ab" ++ [0x0A] ++ str "c") = [str "ab" ++ [0x0A]; str "c"].
Proof. reflexivity. Qed.

(** ** Strings *)

Section Strings.

Implicit Types s sub p : pystr.

Lemma startswith_iff s p : startswith s p = true ↔ ∃ r, s = p ++ r.
Proof.
  revert s. induction p as [|a p IH]; intros [|b s]; simpl.
  - split; [eauto | done].
  - split; [eauto | done].
  - split; [done | intros [r Hr]; done].
  - rewrite andb_true_iff, N.eqb_eq, IH. split.
    + intros [-> [r ->]]. eauto.
    + intros [r Hr]. simplify_eq. eauto.
Qed.

Lemma startswith_nil s : startswith s [] = true.
Proof. by destruct s. Qed.

Lemma str_in_eq sub s :
  str_in sub s
  = startswith s sub
    || match s with [] => false | _ :: s' => str_in sub s' end.
Proof. by destruct s. Qed.

Lemma find_from_eq sub s i :
  find_from sub s i
  = if startswith s sub then i
    else match s with
         | [] => (-1)%Z
         | _ :: s' => find_from sub s' (i + 1)%Z
         end.
Proof. by destruct s. Qed.

Lemma str_in_occurs sub s k : occurs_at sub s k → str_in sub s = true.
Proof.
  unfold occurs_at. revert k. induction s as [|c s IH]; intros k H;
    rewrite str_in_eq.
  - rewrite drop_nil in H. by rewrite H.
  - destruct k as [|k].
    + rewrite drop_0 in H. by rewrite H.
    + rewrite skipn_cons in H. rewrite (IH k H). apply orb_true_r.
Qed.

(** [find] returns [-1] exactly when there is no occurrence, and the
    index of the first occurrence otherwise. *)
Lemma find_from_spec sub s i :
  (find_from sub s i = (-1)%Z ∧ str_in sub s = false)
  ∨ (∃ k, find_from sub s i = (i + Z.of_nat k)%Z
          ∧ occurs_at sub s k
          ∧ ∀ j, (j < k)%nat → ¬ occurs_at sub s j).
Proof.
  unfold occurs_at. revert i. induction s as [|c s IH]; intros i;
    rewrite find_from_eq, str_in_eq.
  - destruct (startswith [] sub) eqn:E.
    + right. exists 0%nat. rewrite Z.add_0_r. split_and!; [done|done|lia].
    + left. done.
  - destruct (startswith (c :: s) sub) eqn:E.
    + right. exists 0%nat. rewrite Z.add_0_r. split_and!; [done|done|lia].
    + destruct (IH (i + 1)%Z) as [[H1 H2]|(k & H1 & H2 & H3)].
      * left. done.
      * right. exists (S k). split_and!.
        -- rewrite H1. lia.
        -- done.
        -- intros [|j] Hj; [rewrite drop_0; by rewrite E|].
           rewrite skipn_cons. apply H3. lia.
Qed.

Lemma find_spec s sub :
  (find s sub = (-1)%Z ∧ str_in sub s = false)
  ∨ (∃ k, find s sub = Z.of_nat k
          ∧ occurs_at sub s k
          ∧ ∀ j, (j < k)%nat → ¬ occurs_at sub s j).
Proof. apply (find_from_spec sub s 0). Qed.

Lemma find_first s sub k :
  occurs_at sub s k → (0 ≤ find s sub ≤ Z.of_nat k)%Z.
Proof.
  intros Hk. destruct (find_spec s sub) as [[_ H]|(k' & -> & _ & H)].
  - by rewrite (str_in_occurs _ _ _ Hk) in H.
  - destruct (decide (k < k')%nat) as [Hlt|]; [|lia].
    by destruct (H k Hlt).
Qed.

Lemma find_before s sub k :
  (∀ j, (j < k)%nat → ¬ occurs_at sub s j) →
  find s sub = (-1)%Z ∨ (Z.of_nat k ≤ find s sub)%Z.
Proof.
  intros Hk. destruct (find_spec s sub) as [[H _]|(k' & -> & H & _)].
  - by left.
  - right. destruct (decide (k' < k)%nat) as [Hlt|]; [|lia].
    by destruct (Hk k' Hlt).
Qed.

Lemma str_in_nonempty sub s : sub ≠ [] → str_in sub s = true → s ≠ [].
Proof. intros Hsub H ->. simpl in H. by destruct sub. Qed.

End Strings.

(** ** Computations *)

Section Computations.

Lemma bind_Ok {A B} (m : W A) (k : A → W B) evs a :
  m = (evs, Ok a) → bind m k = (evs ++ (k a).1, (k a).2).
Proof. by intros ->. Qed.

Lemma bind_Raise {A B} (m : W A) (k : A → W B) evs e :
  m = (evs, Raise e) → bind m k = (evs, Raise e).
Proof. by intros ->. Qed.


(** A loop whose body always returns, returns. *)
Lemma for_each_returns {A S} (body : S → A → W S) (l : list A) s :
  (∀ s' a, ∃ t, (body s' a).2 = Ok t) →
  ∃ t, (for_each body s l).2 = Ok t.
Proof.
  intros Hbody. revert s. induction l as [|b l IH]; intros s.
  - simpl. eauto.
  - simpl. unfold bind. destruct (Hbody s b) as [t ->]. simpl. apply IH.
Qed.

(** An invariant on the messages printed so far and the value threaded,
    kept by every turn of the body, holds when the loop returns. *)
Lemma for_each_invariant {A S} (I : list event → S → Prop)
    (body : S → A → W S) (l : list A) evs0 s0 :
  I evs0 s0 →
  (∀ evs s a t, a ∈ l → I evs s → (body s a).2 = Ok t →
                I (evs ++ (body s a).1) t) →
  ∀ t, (for_each body s0 l).2 = Ok t →
       I (evs0 ++ (for_each body s0 l).1) t.
Proof.
  revert evs0 s0. induction l as [|b l IH]; intros evs0 s0 H0 Hbody t.
  - simpl. intros [= <-]. by rewrite app_nil_r.
  - simpl. unfold bind. destruct (body s0 b).2 as [s1|e] eqn:E; [|done].
    simpl. intros Ht. rewrite app_assoc. apply IH; [|intros; apply Hbody|done].
    + apply (Hbody evs0 s0 b s1); [left|done|done].
    + by right.
    + done.
    + done.
Qed.

End Computations.

(** ** The resolver always comes back *)

Section ResolverTotal.

Variable fs : filesystem.

Lemma resolver_calls_app evs1 evs2 :
  resolver_calls (evs1 ++ evs2) = (resolver_calls evs1 + resolver_calls evs2)%nat.
Proof. unfold resolver_calls. by rewrite List.filter_app, length_app. Qed.

(** Reading a file prints nothing, and fails only with an [Exception]. *)
Lemma read_text_cases path :
  (∃ content, read_text fs path = ([], Ok content))
  ∨ (∃ e, read_text fs path = ([], Raise e) ∧ is_Exception e = true).
Proof.
  unfold read_text. destruct (file_bytes fs path) as [bs|].
  - destruct (utf8_decode bs); [left|right]; eauto.
  - right. eauto.
Qed.

(** What [read_import] does once the file has been read. *)
Lemma read_import_read imported_content import_path_str full_path content :
  read_text fs full_path = ([], Ok content) →
  read_import fs imported_content import_path_str full_path
  = if (Z.of_nat (length content) <? MAX_IMPORT_FILE_SIZE)%Z
    then ([], Ok (imported_content
                  ++ [content_entry import_path_str content]))
    else ([Skipping_large_import import_path_str], Ok imported_content).
Proof.
  intros H. unfold read_import, try_except_Exception, bind. rewrite H. simpl.
  by destruct (Z.of_nat (length content) <? MAX_IMPORT_FILE_SIZE)%Z.
Qed.

Lemma read_import_returns imported_content import_path_str full_path :
  ∃ t, (read_import fs imported_content import_path_str full_path).2 = Ok t
       ∧ resolver_calls
           (read_import fs imported_content import_path_str full_path).1
         = 0%nat.
Proof.
  destruct (read_text_cases full_path) as [[c Hc]|(e & He & Hex)].
  - rewrite (read_import_read _ _ _ _ Hc).
    destruct (Z.of_nat (length c) <? MAX_IMPORT_FILE_SIZE)%Z; eauto.
  - unfold read_import, try_except_Exception, bind. rewrite He. simpl.
    rewrite Hex. simpl. eauto.
Qed.

Lemma import_line_returns package_map repo_root web_search acc line :
  ∃ t, (import_line fs package_map repo_root web_search acc line).2 = Ok t
       ∧ resolver_calls
           (import_line fs package_map repo_root web_search acc line).1
         = 0%nat.
Proof.
  unfold import_line. destruct (import_regex_match line) as [ip|]; [|eauto].
  destruct (truthy _); [apply read_import_returns|].
  destruct web_search; simpl; eauto.
Qed.

Lemma import_lines_return package_map repo_root web_search acc lines :
  ∃ t, (for_each (import_line fs package_map repo_root web_search) acc
          lines).2 = Ok t
       ∧ resolver_calls
           (for_each (import_line fs package_map repo_root web_search) acc
              lines).1 = 0%nat.
Proof.
  revert acc. induction lines as [|l lines IH]; intros acc; simpl; [eauto|].
  unfold bind.
  destruct (import_line_returns package_map repo_root web_search acc l)
    as (t & -> & Hc).
  simpl. destruct (IH t) as (t' & -> & Hc'). exists t'.
  by rewrite resolver_calls_app, Hc, Hc'.
Qed.

Lemma build_package_map_cases repo_root :
  (∃ m, build_package_map fs repo_root = ([], Ok m))
  ∨ build_package_map fs repo_root = ([], Raise OSError).
Proof.
  unfold build_package_map. destruct (os_path_isdir _ _); [|left; eauto].
  destruct (os_listdir _ _); [left|right]; eauto.
Qed.

Lemma build_package_map_returns repo_root :
  packages_listable fs repo_root →
  ∃ m, build_package_map fs repo_root = ([], Ok m).
Proof.
  unfold packages_listable, build_package_map.
  destruct (os_path_isdir _ _); [|eauto].
  intros H. destruct (H eq_refl) as [names ->]. eauto.
Qed.


Lemma find_and_read_imports_returns file_content repo_root web_search :
  packages_listable fs repo_root →
  ∃ ictx,
    (find_and_read_imports fs file_content repo_root web_search).2 = Ok ictx.
Proof.
  intros Hl. destruct (build_package_map_returns repo_root Hl) as [m Hm].
  unfold find_and_read_imports, bind at 1. simpl.
  rewrite (bind_Ok _ _ _ _ Hm). simpl.
  destruct (import_lines_return m repo_root web_search []
              (splitlines file_content)) as (t & Ht & _).
  unfold bind. rewrite Ht. simpl. eauto.
Qed.

End ResolverTotal.

(** ** The records of one file *)

Section ScannerSpec.

Variables (fs : filesystem) (repo : pystr) (web : bool).
Variables (fp : pystr) (lines : list pystr) (content : pystr).

Lemma decl_context_snoc pre line :
  decl_context (pre ++ [line])
  = if decl_regex_search line then (strip line, S (length pre))
    else decl_context pre.
Proof.
  unfold decl_context. rewrite rev_app_distr. simpl.
  by rewrite length_rev.
Qed.

(** The loop appends the records of the qualifying lines, in order, and
    enters the resolver once for each. *)
Lemma scan_lines_spec pre rest acc ictx :
  lines = pre ++ rest →
  (find_and_read_imports fs content repo web).2 = Ok ictx →
  scan_lines fs repo web fp lines content rest (length pre)
    (decl_context pre).1 (decl_context pre).2 acc
  = (List.concat
       (List.map (λ _, (find_and_read_imports fs content repo web).1)
          (omap (record_if fp lines content ictx)
             (seq (length pre) (length rest)))),
     Ok (acc ++ omap (record_if fp lines content ictx)
                  (seq (length pre) (length rest)))).
Proof.
  intros Hl Hr. set (r := find_and_read_imports fs content repo web) in *.
  revert pre acc Hl.
  induction rest as [|line rest IH]; intros pre acc Hl.
  - simpl. by rewrite app_nil_r.
  - assert (Hl' : lines = (pre ++ [line]) ++ rest) by by rewrite <- app_assoc.
    assert (Hi : lines !! length pre = Some line)
      by (rewrite Hl; apply list_lookup_middle; done).
    assert (Hrec : record_if fp lines content ictx (length pre)
                   = if qualifies line
                     then Some (record_at fp lines content ictx (length pre))
                     else None)
      by (unfold record_if; rewrite Hi; done).
    assert (Htake : take (S (length pre)) lines = pre ++ [line])
      by (rewrite Hl'; apply take_app_length'; rewrite length_app; simpl; lia).
    specialize (IH (pre ++ [line])).
    rewrite length_app, decl_context_snoc in IH. cbn [length] in IH.
    rewrite Nat.add_1_r in IH.
    cbn [scan_lines length seq omap list_omap]. rewrite Nat.add_1_r, Hrec.
    fold r.
    replace (if decl_regex_search line then strip line
             else (decl_context pre).1)
      with (if decl_regex_search line then (strip line, S (length pre))
            else decl_context pre).1
      by (by destruct (decl_regex_search line)).
    replace (if decl_regex_search line then S (length pre)
             else (decl_context pre).2)
      with (if decl_regex_search line then (strip line, S (length pre))
            else decl_context pre).2
      by (by destruct (decl_regex_search line)).
    unfold qualifies.
    destruct (str_in (str "sorry") line) eqn:Es;
      [destruct (in_trailing_comment line) eqn:Et|]; cbn [andb negb].
    + by apply IH.
    + unfold bind. rewrite Hr. cbn [fst snd]. rewrite IH by done.
      cbn [fst snd List.map List.concat]. f_equal. rewrite <- app_assoc.
      do 2 f_equal. unfold record_at.
      by rewrite Htake, decl_context_snoc.
    + by apply IH.
Qed.

End ScannerSpec.

(** ** The declaration context and the snippet *)

Section DeclContext.

Implicit Types pre lines : list pystr.

Lemma decl_context_none pre :
  (∀ l, l ∈ pre → decl_regex_search l = false) →
  decl_context pre = ([], 0%nat).
Proof.
  induction pre as [|x pre IH] using rev_ind; intros H; [done|].
  rewrite decl_context_snoc, H by (apply elem_of_app; right; by left).
  apply IH. intros l Hl. apply H, elem_of_app. by left.
Qed.

Lemma decl_context_last pre h hl :
  pre !! h = Some hl →
  decl_regex_search hl = true →
  (∀ k l, (h < k)%nat → pre !! k = Some l → decl_regex_search l = false) →
  decl_context pre = (strip hl, S h).
Proof.
  induction pre as [|x pre IH] using rev_ind; intros Hh Hd Hafter; [done|].
  rewrite decl_context_snoc.
  destruct (decide (h = length pre)) as [->|Hne].
  - rewrite list_lookup_middle in Hh by done. simplify_eq. by rewrite Hd.
  - assert (h < length pre)%nat as Hlt.
    { apply lookup_lt_Some in Hh. rewrite length_app in Hh. simpl in Hh. lia. }
    rewrite (Hafter (length pre) x Hlt) by (by apply list_lookup_middle).
    apply IH; [by rewrite lookup_app_l in Hh|done|].
    intros k l Hk Hl. apply (Hafter k l Hk).
    rewrite lookup_app_l; [done|]. by apply lookup_lt_Some in Hl.
Qed.

Lemma decl_context_le pre : ((decl_context pre).2 ≤ length pre)%nat.
Proof.
  induction pre as [|x pre IH] using rev_ind; [done|].
  rewrite decl_context_snoc, length_app. simpl.
  destruct (decl_regex_search x); simpl; lia.
Qed.

Lemma slice_snoc lines a j line :
  (a ≤ j)%nat → lines !! j = Some line →
  slice lines a (S j) = slice lines a j ++ [line].
Proof.
  intros Ha Hj. unfold slice. rewrite (take_S_r _ _ _ Hj).
  apply drop_app_le. rewrite length_take.
  apply lookup_lt_Some in Hj. lia.
Qed.

Lemma slice_cons lines a b x :
  (a < b)%nat → lines !! a = Some x →
  slice lines a b = x :: slice lines (S a) b.
Proof.
  intros Hab Ha. unfold slice.
  rewrite <- (drop_S _ x); [done|]. by rewrite lookup_take_lt.
Qed.

Lemma slice_one lines j line :
  lines !! j = Some line → slice lines j (S j) = [line].
Proof.
  intros Hj. rewrite (slice_snoc _ _ _ _ (Nat.le_refl j) Hj).
  unfold slice. rewrite drop_ge; [done|]. rewrite length_take. lia.
Qed.

Lemma join_empty_snoc (l : list pystr) x :
  join_empty (l ++ [x]) = join_empty l ++ x.
Proof. unfold join_empty. rewrite concat_app. simpl. by rewrite app_nil_r. Qed.

Lemma snippet_start_le lines j line :
  lines !! j = Some line → (snippet_start lines j ≤ j)%nat.
Proof.
  intros Hj. unfold snippet_start.
  pose proof (decl_context_le (take (S j) lines)) as Hle.
  rewrite length_take in Hle. destruct (0 <? _)%nat; lia.
Qed.

End DeclContext.

(** ** What the scanner returns for one file *)

Section ScannerResult.

Variables (fs : filesystem) (repo : pystr) (web : bool).
Variables (fp : pystr) (lines : list pystr) (content : pystr).

(** When the packages can be listed, the loop over a file returns, and
    the records it appends are those of the qualifying lines. *)
Lemma scan_lines_returns acc :
  packages_listable fs repo →
  ∃ evs ictx,
    scan_lines fs repo web fp lines content lines 0 [] 0 acc
    = (evs, Ok (acc ++ omap (record_if fp lines content ictx)
                         (seq 0 (length lines)))).
Proof.
  intros Hl.
  destruct (find_and_read_imports_returns fs content repo web Hl)
    as [ictx Hr].
  eexists _, ictx.
  apply (scan_lines_spec fs repo web fp lines content [] lines acc ictx);
    done.
Qed.

Lemma elem_of_records ictx r :
  r ∈ omap (record_if fp lines content ictx) (seq 0 (length lines))
  ↔ ∃ j line, lines !! j = Some line ∧ qualifies line = true
              ∧ r = record_at fp lines content ictx j.
Proof.
  rewrite list_elem_of_omap. split.
  - intros (j & _ & Hj). unfold record_if in Hj.
    destruct (lines !! j) as [line|] eqn:E; [|done]. simpl in Hj.
    destruct (qualifies line) eqn:Q; [|done]. simplify_eq. eauto.
  - intros (j & line & Hj & Q & ->). exists j. split.
    + apply elem_of_seq. apply lookup_lt_Some in Hj. lia.
    + unfold record_if. rewrite Hj. simpl. by rewrite Q.
Qed.

End ScannerResult.

(** ** The scanner: which lines give a record *)

Section ScannerClaims.

Variables (fs : filesystem) (repo : pystr) (web : bool).
Variables (fp : pystr) (lines : list pystr) (content : pystr).
Variable acc : list sorry_record.

Lemma in_trailing_comment_iff line :
  in_trailing_comment line = true
  ↔ (find line (str "--") ≠ -1
     ∧ find line (str "--") < find line (str "sorry"))%Z.
Proof.
  unfold in_trailing_comment.
  rewrite andb_true_iff, negb_true_iff, Z.eqb_neq, Z.ltb_lt. done.
Qed.

(** C6. On a line that holds the marker, with [comment_pos] the index of
    the first [--] and [sorry_pos] the index of the first [sorry]: when
    [sorry_pos] lies after [comment_pos], no record is appended for the
    line; when there is no [--] or [sorry_pos] lies before [comment_pos],
    a record is appended for it. *)
Theorem trailing_comment_exclusion i line :
  packages_listable fs repo →
  lines !! i = Some line →
  str_in (str "sorry") line = true →
  ∃ evs recs,
    scan_lines fs repo web fp lines content lines 0 [] 0 acc
    = (evs, Ok (acc ++ recs))
    ∧ ((find line (str "--") ≠ -1
        ∧ find line (str "--") < find line (str "sorry"))%Z →
       ∀ r, r ∈ recs → line_num r ≠ S i)
    ∧ ((find line (str "--") = -1
        ∨ find line (str "sorry") < find line (str "--"))%Z →
       ∃ r, r ∈ recs ∧ line_num r = S i).
Proof.
  intros Hl Hi Hs.
  destruct (scan_lines_returns fs repo web fp lines content acc Hl)
    as (evs & ictx & H).
  eexists _, _. split; [exact H|]. split.
  - intros Hc r Hr Hn. apply elem_of_records in Hr as (j & l & Hj & Q & ->).
    simpl in Hn. simplify_eq. apply in_trailing_comment_iff in Hc.
    unfold qualifies in Q. rewrite Hc, andb_false_r in Q. done.
  - intros Hc. exists (record_at fp lines content ictx i). split; [|done].
    apply elem_of_records. exists i, line. split_and!; [done| |done].
    unfold qualifies. rewrite Hs. simpl. apply negb_true_iff.
    apply not_true_is_false. rewrite in_trailing_comment_iff. lia.
Qed.

(** C9. The marker is looked for as a piece of text: when the characters
    [sorry] occur anywhere in a line, at an index [p] with no [--]
    starting before [p], a record is appended for the line, whatever
    stands around the occurrence. *)
Theorem substring_marker i line p :
  packages_listable fs repo →
  lines !! i = Some line →
  occurs_at (str "sorry") line p →
  (∀ q, (q < p)%nat → ¬ occurs_at (str "--") line q) →
  ∃ evs recs,
    scan_lines fs repo web fp lines content lines 0 [] 0 acc
    = (evs, Ok (acc ++ recs))
    ∧ ∃ r, r ∈ recs ∧ line_num r = S i.
Proof.
  intros Hl Hi Hp Hq.
  destruct (scan_lines_returns fs repo web fp lines content acc Hl)
    as (evs & ictx & H).
  eexists _, _. split; [exact H|].
  exists (record_at fp lines content ictx i). split; [|done].
  apply elem_of_records. exists i, line. split_and!; [done| |done].
  unfold qualifies. rewrite (str_in_occurs _ _ _ Hp). simpl.
  apply negb_true_iff, not_true_is_false. rewrite in_trailing_comment_iff.
  pose proof (find_first _ _ _ Hp). pose proof (find_before _ _ _ Hq). lia.
Qed.

(** C8. Every record the scanner appends has a snippet that is not
    empty and that is made of consecutive lines of the file of which the
    last is the line of the marker; when no line up to and including the
    line of the marker matches the header pattern, the snippet is that
    line alone and the name is empty. *)
Theorem snippet_invariant :
  packages_listable fs repo →
  ∃ evs recs,
    scan_lines fs repo web fp lines content lines 0 [] 0 acc
    = (evs, Ok (acc ++ recs))
    ∧ ∀ r, r ∈ recs →
        ∃ j line a,
          line_num r = S j
          ∧ lines !! j = Some line
          ∧ str_in (str "sorry") line = true
          ∧ (a ≤ j)%nat
          ∧ snippet r = join_empty (slice lines a j) ++ line
          ∧ snippet r ≠ []
          ∧ ((∀ k l, (k ≤ j)%nat → lines !! k = Some l →
                     decl_regex_search l = false) →
             snippet r = line ∧ decl_name r = []).
Proof.
  intros Hl.
  destruct (scan_lines_returns fs repo web fp lines content acc Hl)
    as (evs & ictx & H).
  eexists _, _. split; [exact H|].
  intros r Hr. apply elem_of_records in Hr as (j & line & Hj & Q & ->).
  apply andb_true_iff in Q as [Hs _].
  pose proof (snippet_start_le lines j line Hj) as Hle.
  assert (Hsn : snippet (record_at fp lines content ictx j)
                = join_empty (slice lines (snippet_start lines j) j) ++ line).
  { unfold record_at. cbn [snippet]. fold (snippet_start lines j).
    by rewrite (slice_snoc _ _ _ _ Hle Hj), join_empty_snoc. }
  exists j, line, (snippet_start lines j). split_and!; try done.
  - rewrite Hsn. intros Hnil. apply app_eq_nil in Hnil as [_ ->].
    by apply (str_in_nonempty (str "sorry") []) in Hs.
  - intros Hno.
    assert (Hctx : decl_context (take (S j) lines) = ([], 0%nat)).
    { apply decl_context_none. intros l Hin.
      apply list_elem_of_lookup in Hin as [k Hk].
      pose proof (lookup_lt_Some _ _ _ Hk) as Hlt. rewrite length_take in Hlt.
      rewrite lookup_take_lt in Hk by lia. apply (Hno k l); [lia|done]. }
    unfold record_at. cbn [snippet decl_name]. rewrite Hctx. simpl.
    rewrite Nat.sub_0_r, (slice_one _ _ _ Hj). simpl.
    by rewrite app_nil_r.
Qed.

(** C10. A line that matches the header pattern and from which no name
    can be extracted still sets the declaration context: the record of a
    marker line that follows it, with no other header in between, has an
    empty name and a snippet that starts with the header line and runs to
    the marker line; so when the marker is on a later line the snippet is
    longer than the marker line. *)
Theorem nameless_header_sets_context h m hl ml :
  packages_listable fs repo →
  lines !! h = Some hl →
  decl_regex_search hl = true →
  name_extract_regex_match (strip hl) = None →
  (h ≤ m)%nat →
  lines !! m = Some ml →
  (∀ k l, (h < k ≤ m)%nat → lines !! k = Some l →
          decl_regex_search l = false) →
  qualifies ml = true →
  ∃ evs recs,
    scan_lines fs repo web fp lines content lines 0 [] 0 acc
    = (evs, Ok (acc ++ recs))
    ∧ ∃ r, r ∈ recs
           ∧ line_num r = S m
           ∧ decl_name r = []
           ∧ snippet r = join_empty (slice lines h (S m))
           ∧ (∃ tail, snippet r = hl ++ tail)
           ∧ ((h < m)%nat → (length ml < length (snippet r))%nat).
Proof.
  intros Hl Hh Hd Hn Hhm Hm Hbetween Q.
  destruct (scan_lines_returns fs repo web fp lines content acc Hl)
    as (evs & ictx & H).
  eexists _, _. split; [exact H|].
  exists (record_at fp lines content ictx m).
  assert (Hctx : decl_context (take (S m) lines) = (strip hl, S h)).
  { apply decl_context_last; [by rewrite lookup_take_lt by lia|done|].
    intros k l Hk Hkl.
    pose proof (lookup_lt_Some _ _ _ Hkl) as Hlt. rewrite length_take in Hlt.
    rewrite lookup_take_lt in Hkl by lia. apply (Hbetween k l); [lia|done]. }
  assert (Hsn : snippet (record_at fp lines content ictx m)
                = join_empty (slice lines h (S m))).
  { unfold record_at. cbn [snippet]. rewrite Hctx. simpl.
    by rewrite Nat.sub_0_r. }
  split_and!.
  - apply elem_of_records. eauto.
  - done.
  - unfold record_at. cbn [decl_name]. rewrite Hctx. simpl. by rewrite Hn.
  - done.
  - rewrite Hsn, (slice_cons _ _ _ hl) by (done || lia). simpl. eauto.
  - intros Hlt. rewrite Hsn, (slice_snoc _ _ _ _ Hhm Hm), join_empty_snoc.
    rewrite (slice_cons _ _ _ hl) by done. simpl.
    rewrite !length_app. destruct hl; [done|]. simpl. lia.
Qed.

End ScannerClaims.

(** ** The scanner on the reference files *)

Lemma fs_foo_listable : packages_listable fs_foo (str "/r").
Proof. intros H. vm_compute in H. discriminate. Qed.

Lemma trailing_comment_exclusion_witness :
  ∃ evs recs,
    scan_lines fs_foo (str "/r") false (str "./Mixed.lean")
      (lines_of mixed_lean) (join_empty (lines_of mixed_lean))
      (lines_of mixed_lean) 0 [] 0 []
    = (evs, Ok ([] ++ recs))
    ∧ ((find comment_line (str "--") ≠ -1
        ∧ find comment_line (str "--")
          < find comment_line (str "sorry"))%Z →
       ∀ r, r ∈ recs → line_num r ≠ 2%nat)
    ∧ ((find comment_line (str "--") = -1
        ∨ find comment_line (str "sorry")
          < find comment_line (str "--"))%Z →
       ∃ r, r ∈ recs ∧ line_num r = 2%nat).
Proof.
  apply (trailing_comment_exclusion fs_foo (str "/r") false
           (str "./Mixed.lean") (lines_of mixed_lean)
           (join_empty (lines_of mixed_lean)) [] 1 comment_line).
  - exact fs_foo_listable.
  - vm_compute. reflexivity.
  - vm_compute. reflexivity.
Defined.

Lemma substring_marker_witness :
  ∃ evs recs,
    scan_lines fs_foo (str "/r") false (str "./Mixed.lean")
      (lines_of mixed_lean) (join_empty (lines_of mixed_lean))
      (lines_of mixed_lean) 0 [] 0 []
    = (evs, Ok ([] ++ recs))
    ∧ ∃ r, r ∈ recs ∧ line_num r = 3%nat.
Proof.
  apply (substring_marker fs_foo (str "/r") false (str "./Mixed.lean")
           (lines_of mixed_lean) (join_empty (lines_of mixed_lean)) [] 2
           sorryAx_line 8).
  - exact fs_foo_listable.
  - vm_compute. reflexivity.
  - vm_compute. reflexivity.
  - intros q Hq H.
    do 8 (destruct q as [|q]; [vm_compute in H; discriminate|]). lia.
Defined.

Lemma snippet_invariant_witness :
  ∃ evs recs,
    scan_lines fs_foo (str "/r") false (str "./Foo.lean")
      (lines_of foo_lean) (join_empty (lines_of foo_lean))
      (lines_of foo_lean) 0 [] 0 []
    = (evs, Ok ([] ++ recs))
    ∧ ∀ r, r ∈ recs →
        ∃ j line a,
          line_num r = S j
          ∧ lines_of foo_lean !! j = Some line
          ∧ str_in (str "sorry") line = true
          ∧ (a ≤ j)%nat
          ∧ snippet r = join_empty (slice (lines_of foo_lean) a j) ++ line
          ∧ snippet r ≠ []
          ∧ ((∀ k l, (k ≤ j)%nat → lines_of foo_lean !! k = Some l →
                     decl_regex_search l = false) →
             snippet r = line ∧ decl_name r = []).
Proof.
  apply (snippet_invariant fs_foo (str "/r") false (str "./Foo.lean")
           (lines_of foo_lean) (join_empty (lines_of foo_lean)) []).
  exact fs_foo_listable.
Defined.

Lemma nameless_header_sets_context_witness :
  ∃ evs recs,
    scan_lines fs_foo (str "/r") false (str "./Inst.lean")
      (lines_of instance_lean) (join_empty (lines_of instance_lean))
      (lines_of instance_lean) 0 [] 0 []
    = (evs, Ok ([] ++ recs))
    ∧ ∃ r, r ∈ recs
           ∧ line_num r = 2%nat
           ∧ decl_name r = []
           ∧ snippet r = join_empty (slice (lines_of instance_lean) 0 2)
           ∧ (∃ tail, snippet r = instance_line ++ tail)
           ∧ ((0 < 1)%nat →
              (length sorry_line < length (snippet r))%nat).
Proof.
  apply (nameless_header_sets_context fs_foo (str "/r") false
           (str "./Inst.lean") (lines_of instance_lean)
           (join_empty (lines_of instance_lean)) [] 0 1 instance_line
           sorry_line).
  - exact fs_foo_listable.
  - vm_compute. reflexivity.
  - vm_compute. reflexivity.
  - vm_compute. reflexivity.
  - lia.
  - vm_compute. reflexivity.
  - intros k l Hk Hl. assert (k = 1%nat) as -> by lia.
    vm_compute in Hl. injection Hl as <-. vm_compute. reflexivity.
  - vm_compute. reflexivity.
Defined.

(** The scenario of the specification: one header, one marker. *)
Example scan_foo :
  find_all_sorries fs_foo (str ".") (str "/r") false
  = ([Call_find_and_read_imports (join_empty (lines_of foo_lean)) (str "/r")
        false],
     Ok [{| file_path := str "./Foo.lean";
            line_num := 2;
            decl_name := str "foo";
            snippet := join_empty (lines_of foo_lean);
            full_content := join_empty (lines_of foo_lean);
            imports_context := [] |}]).
Proof. vm_compute. reflexivity. Qed.

(** A marker before a comment, a marker inside a comment, and the marker
    as the beginning of an identifier. *)
Example scan_mixed :
  List.map (λ r, (line_num r, decl_name r))
    (default []
       (match (scan_lines fs_foo (str "/r") false (str "./Mixed.lean")
                 (lines_of mixed_lean) (join_empty (lines_of mixed_lean))
                 (lines_of mixed_lean) 0 [] 0 []).2 with
        | Ok recs => Some recs
        | Raise _ => None
        end))
  = [(1%nat, str "f"); (3%nat, str "f")].
Proof. vm_compute. reflexivity. Qed.

(** ** The resolver: search order *)

Section ResolverClaims.

Variable fs : filesystem.

Lemma split_cons sep s : ∃ p ps, split sep s = p :: ps.
Proof.
  induction s as [|c s IH]; simpl; [eauto|].
  destruct (c =? sep); [eauto|]. destruct IH as (p & ps & ->). eauto.
Qed.

Lemma path_join2_nonempty path b : b ≠ [] → path_join2 path b ≠ [].
Proof.
  intros Hb. unfold path_join2. destruct (startswith b (str "/")); [done|].
  destruct (_ || _); intros H; apply app_eq_nil in H as [_ H]; [done|].
  by apply app_eq_nil in H as [H _].
Qed.

Lemma relative_path_nonempty import_path_str :
  relative_path import_path_str ≠ [].
Proof.
  unfold relative_path. destruct (split_cons 0x2E import_path_str)
    as (p & ps & ->). simpl. intros H. by apply app_eq_nil in H as [_ H].
Qed.

(** The keys of the package map are the capitalized names of the listed
    packages, and each is mapped to the directory of such a package. *)
Lemma build_package_map_lookup repo_root names package_map key package_root :
  os_listdir fs (lake_packages_path repo_root) = Some names →
  build_package_map fs repo_root = ([], Ok package_map) →
  package_map !! key = Some package_root →
  ∃ package_name,
    package_name ∈ names ∧ capitalize package_name = key
    ∧ package_root
      = os_path_join (lake_packages_path repo_root) [package_name].
Proof.
  unfold build_package_map. intros ->.
  destruct (os_path_isdir _ _); [|by intros [= <-]].
  intros [= <-]. induction names as [|x names IH] using rev_ind; [done|].
  rewrite foldl_app. simpl.
  destruct (decide (capitalize x = key)) as [<-|Hne].
  - rewrite lookup_insert_eq. intros [= <-]. exists x.
    split_and!; [|done|done]. apply elem_of_app. right. by left.
  - rewrite lookup_insert_ne by done. intros H.
    destruct (IH H) as (n & Hn & Hk & Hr). exists n.
    split_and!; [|done|done]. apply elem_of_app. by left.
Qed.


End ResolverClaims.


(** The file of the package is read although [/r/Mathlib/Data.lean]
    exists as well. *)
Example shadowed_project_file :
  os_path_exists fs_shadow (str "/r/Mathlib/Data.lean") = true
  ∧ find_and_read_imports fs_shadow (str "import Mathlib.Data") (str "/r")
      false
    = ([Call_find_and_read_imports (str "import Mathlib.Data") (str "/r")
          false],
       Ok (content_entry (str "Mathlib.Data") (str "-- from the package"))).
Proof. split; vm_compute; reflexivity. Qed.

(** ** The resolver: the size threshold *)

Section SizeThreshold.

(** The test of line 100 compares the number of characters of the decoded
    text, after the translation of the line ends, with the threshold. *)
Lemma read_import_counts_characters (fs : filesystem) imported_content
    import_path_str full_path bs text :
  file_bytes fs full_path = Some bs →
  utf8_decode bs = Some text →
  read_import fs imported_content import_path_str full_path
  = if (Z.of_nat (length (universal_newlines text)) <? 25000)%Z
    then ([], Ok (imported_content
                  ++ [content_entry import_path_str
                        (universal_newlines text)]))
    else ([Skipping_large_import import_path_str], Ok imported_content).
Proof.
  intros Hb Hd. apply read_import_read. unfold read_text. by rewrite Hb, Hd.
Qed.

Lemma utf8_decode_accents n :
  utf8_decode (List.concat (repeat [xc3; xa9] n)) = Some (repeat 0xE9 n).
Proof.
  induction n as [|n IH]; [done|].
  cbn [repeat List.concat app].
  change (utf8_decode (xc3 :: xa9 :: List.concat (repeat [xc3; xa9] n)))
    with (cons 0xE9 <$> utf8_decode (List.concat (repeat [xc3; xa9] n))).
  by rewrite IH.
Qed.

Lemma universal_newlines_accents n :
  universal_newlines (repeat 0xE9 n) = repeat 0xE9 n.
Proof. induction n as [|n IH]; [done|]. simpl. by rewrite IH. Qed.

Lemma length_accents n :
  length (List.concat (repeat [xc3; xa9] n)) = (2 * n)%nat.
Proof. induction n as [|n IH]; [done|]. simpl. rewrite IH. lia. Qed.

Lemma read_text_big :
  read_text fs_big (str "/r/Big.lean")
  = ([], Ok (repeat 0xE9 (N.to_nat 12500))).
Proof.
  unfold read_text.
  change (file_bytes fs_big (str "/r/Big.lean")) with (Some accents).
  unfold accents. by rewrite utf8_decode_accents, universal_newlines_accents.
Qed.

(** The resolver on a file whose only line is an import. *)
Lemma find_and_read_imports_one_line (fs : filesystem) file_content
    repo_root web_search package_map line evs imported_content :
  build_package_map fs repo_root = ([], Ok package_map) →
  splitlines file_content = [line] →
  import_line fs package_map repo_root web_search [] line
  = (evs, Ok imported_content) →
  find_and_read_imports fs file_content repo_root web_search
  = (Call_find_and_read_imports file_content repo_root web_search :: evs,
     Ok (join_empty imported_content)).
Proof.
  intros Hm Hs Hi. unfold find_and_read_imports.
  rewrite (bind_Ok _ _ [Call_find_and_read_imports file_content repo_root
                          web_search] tt eq_refl).
  rewrite (bind_Ok _ _ _ _ Hm), Hs. cbn [for_each].
  rewrite (bind_Ok _ _ _ _ Hi). cbn [ret fst snd].
  rewrite (bind_Ok _ _ evs imported_content) by by rewrite app_nil_r.
  cbn [ret fst snd app]. by rewrite !app_nil_r.
Qed.

Lemma import_line_big :
  import_line fs_big ∅ (str "/r") false [] (str "import Big")
  = ([], Ok [content_entry (str "Big") (repeat 0xE9 (N.to_nat 12500))]).
Proof.
  assert (Hre : import_regex_match (str "import Big") = Some (str "Big"))
    by (vm_compute; reflexivity).
  assert (Hres : resolve_import fs_big ∅ (str "/r") (str "Big")
                 = Some (str "/r/Big.lean")) by (vm_compute; reflexivity).
  assert (Htr : truthy (Some (str "/r/Big.lean")) = true) by reflexivity.
  unfold import_line. rewrite Hre, Hres, Htr.
  change (default [] (Some (str "/r/Big.lean"))) with (str "/r/Big.lean").
  rewrite (read_import_read fs_big [] (str "Big") (str "/r/Big.lean") _
             read_text_big).
  rewrite repeat_length, N_nat_Z. reflexivity.
Qed.

(** C7, at a file of 25,000 bytes that holds 12,500 characters: the file
    is at the threshold in bytes, and yet its whole text is appended to
    the context and no warning is printed. *)
Theorem threshold_counts_characters_not_bytes :
  Z.of_nat <$> byte_size fs_big (str "/r/Big.lean") = Some 25000%Z
  ∧ find_and_read_imports fs_big (str "import Big") (str "/r") false
    = ([Call_find_and_read_imports (str "import Big") (str "/r") false],
       Ok (content_entry (str "Big") (repeat 0xE9 (N.to_nat 12500)))).
Proof.
  split.
  - unfold byte_size.
    change (file_bytes fs_big (str "/r/Big.lean")) with (Some accents).
    unfold accents. cbn [fmap option_fmap option_map].
    rewrite length_accents, Nat2Z.inj_mul, N_nat_Z. reflexivity.
  - rewrite (find_and_read_imports_one_line fs_big (str "import Big")
               (str "/r") false ∅ (str "import Big") [] _ eq_refl eq_refl
               import_line_big).
    unfold join_empty. cbn [List.concat]. by rewrite app_nil_r.
Qed.

End SizeThreshold.

(** ** The walker: one file *)

Section WalkerFile.

Variables (fs : filesystem) (repo : pystr) (web : bool).

(** When the resolver raises, the loop over a file raises at the first
    qualifying line, and returns its accumulator when there is none. *)
Lemma scan_lines_spec_raise fp lines content pre rest acc e :
  lines = pre ++ rest →
  (find_and_read_imports fs content repo web).2 = Raise e →
  scan_lines fs repo web fp lines content rest (length pre)
    (decl_context pre).1 (decl_context pre).2 acc
  = match omap (record_if fp lines content [])
            (seq (length pre) (length rest)) with
    | [] => ([], Ok acc)
    | _ :: _ => ((find_and_read_imports fs content repo web).1, Raise e)
    end.
Proof.
  intros Hl Hr. set (r := find_and_read_imports fs content repo web) in *.
  revert pre acc Hl.
  induction rest as [|line rest IH]; intros pre acc Hl; [done|].
  assert (Hl' : lines = (pre ++ [line]) ++ rest) by by rewrite <- app_assoc.
  assert (Hi : lines !! length pre = Some line)
    by (rewrite Hl; apply list_lookup_middle; done).
  assert (Hrec : record_if fp lines content [] (length pre)
                 = if qualifies line
                   then Some (record_at fp lines content [] (length pre))
                   else None)
    by (unfold record_if; rewrite Hi; done).
  specialize (IH (pre ++ [line])).
  rewrite length_app, decl_context_snoc in IH. cbn [length] in IH.
  rewrite Nat.add_1_r in IH.
  cbn [scan_lines length seq omap list_omap]. rewrite Nat.add_1_r, Hrec.
  fold r.
  replace (if decl_regex_search line then strip line
           else (decl_context pre).1)
    with (if decl_regex_search line then (strip line, S (length pre))
          else decl_context pre).1
    by (by destruct (decl_regex_search line)).
  replace (if decl_regex_search line then S (length pre)
           else (decl_context pre).2)
    with (if decl_regex_search line then (strip line, S (length pre))
          else decl_context pre).2
    by (by destruct (decl_regex_search line)).
  unfold qualifies.
  destruct (str_in (str "sorry") line) eqn:Es;
    [destruct (in_trailing_comment line) eqn:Et|]; cbn [andb negb].
  - by apply IH.
  - unfold bind. by rewrite Hr.
  - by apply IH.
Qed.



End WalkerFile.



Example two_markers_two_records :
  resolver_calls
    (scan_file fs_two (str "/r") false (str ".") [] (str "Two.lean")).1
  = 2%nat
  ∧ List.map line_num
      (default []
         (match (scan_file fs_two (str "/r") false (str ".") []
                   (str "Two.lean")).2 with
          | Ok recs => Some recs
          | Raise _ => None
          end))
    = [3%nat; 4%nat].
Proof. split; vm_compute; reflexivity. Qed.

(** ** The walker: a file that cannot be read *)

Section WalkerAbort.

Variables (fs : filesystem) (repo : pystr) (web : bool).

Lemma elem_of_insert_sorted x y l : y ∈ insert_sorted x l ↔ y = x ∨ y ∈ l.
Proof.
  induction l as [|z l IH]; simpl.
  - rewrite list_elem_of_singleton, elem_of_nil. tauto.
  - destruct (str_leb x z); rewrite !elem_of_cons; [tauto|].
    rewrite IH. tauto.
Qed.

Lemma elem_of_sorted y l : y ∈ sorted l ↔ y ∈ l.
Proof.
  unfold sorted. induction l as [|x l IH]; [done|].
  simpl. by rewrite elem_of_insert_sorted, elem_of_cons, IH.
Qed.



End WalkerAbort.



(** ** The publisher *)

Section PublisherFacts.

Context {store : Type}.
Variable gh : list pystr → store → store * proc_result.

(** The query of line 206 does not depend on the title. *)
Lemma search_query_ignores_title title1 title2 repo_name :
  search_query title1 repo_name = search_query title2 repo_name.
Proof. reflexivity. Qed.

(** Whether an issue is taken to exist does not depend on the title
    either. *)
Lemma check_existing_ignores_title title1 title2 repo_name s :
  (check_existing gh title1 repo_name s).1
  = (check_existing gh title2 repo_name s).1
  ∧ (check_existing gh title1 repo_name s).2.2
    = (check_existing gh title2 repo_name s).2.2.
Proof.
  unfold check_existing, run_command.
  rewrite (search_query_ignores_title title1 title2).
  unfold try_except_CalledProcessError, bindP, subprocess_run, liftW, retP.
  destruct (gh _ s) as [s' [code out err|]]; [|done].
  destruct (code =? 0)%Z; [|done].
  cbn [ret raise emit fst snd app]. by destruct (strip out).
Qed.


End PublisherFacts.

(** The reference store finds an open issue when it is asked for its
    title. *)
Example reference_store_finds_title :
  (gh_reference (title_search foo_title)
     [{| title_of := foo_title; body_of := []; label_of := [] |}]).2
  = Exited 0 (foo_title ++ [0x0A]) [].
Proof. vm_compute. reflexivity. Qed.

(** C1, on the project with the single file [./Foo.lean] and a store
    without issues. The query sent to the store is the same for every
    title; the first run creates the issue for [foo]; the second run, with
    that issue open in the store, does not find it and creates it again. *)
Theorem second_run_creates_the_issue_again :
  (∀ title repo_name, search_query title repo_name = search_query [] repo_name)
  ∧ List.map title_of (pipeline_run gh_reference fs_foo []).1 = [foo_title]
  ∧ List.map title_of
      (pipeline_run gh_reference fs_foo
         (pipeline_run gh_reference fs_foo []).1).1
    = [foo_title; foo_title]
  ∧ (pipeline_run gh_reference fs_foo
       (pipeline_run gh_reference fs_foo []).1).2
    = ([Call_find_and_read_imports (join_empty (lines_of foo_lean))
          (str "/r") false;
        Successfully_created_issue foo_title],
       Ok tt).
Proof.
  split_and!.
  - reflexivity.
  - vm_compute. reflexivity.
  - vm_compute. reflexivity.
  - vm_compute. reflexivity.
Qed.

(** C2, on the project with the single file [./Two.lean], which gives two
    records, and a store whose search fails. The first search ends the
    whole run with [SystemExit]: no creation is attempted for the first
    record, and the second record is never handled. *)
Theorem search_failure_ends_the_run :
  pipeline_run gh_search_down fs_two []
  = ([],
     ([Call_find_and_read_imports (join_empty (lines_of two_lean))
         (str "/r") false;
       Call_find_and_read_imports (join_empty (lines_of two_lean))
         (str "/r") false;
       Error_running_command search_command
         (str "error connecting to api.github.com")],
      Raise (SystemExit 1))).
Proof. vm_compute. reflexivity. Qed.

(** The other half of C2 holds: a creation that fails is reported for
    its record and the next record is handled. *)
Example creation_failure_is_per_record :
  (pipeline_run
     (gh_create_fails_for (str "Proof obligation for `bar` in `./Two.lean`"))
     fs_foo []).2.2 = Ok tt
  ∧ ∃ evs,
      (pipeline_run
         (gh_create_fails_for
            (str "Proof obligation for `bar` in `./Two.lean`"))
         fs_two []).2
      = (evs ++ [Failed_to_create_issue
                   (str "Proof obligation for `bar` in `./Two.lean`")
                   (str "could not add label");
                 Failed_to_create_issue
                   (str "Proof obligation for `bar` in `./Two.lean`")
                   (str "could not add label")],
         Ok tt).
Proof.
  split; [vm_compute; reflexivity|].
  eexists [_; _]. vm_compute. reflexivity.
Qed.

(** * Further properties of the code *)

(** ** The scanner: files without a marker, order of the records *)

Section ScannerMore.

Variables (fs : filesystem) (repo : pystr) (web : bool).
Variables (fp : pystr) (lines : list pystr) (content : pystr).
Variable acc : list sorry_record.

Lemma scan_lines_no_marker rest i hdr hnum :
  (∀ line, line ∈ rest →
           str_in (str "sorry") line = false
           ∨ in_trailing_comment line = true) →
  scan_lines fs repo web fp lines content rest i hdr hnum acc = ([], Ok acc).
Proof.
  revert i hdr hnum. induction rest as [|line rest IH]; intros i hdr hnum H;
    [done|].
  cbn [scan_lines].
  destruct (H line) as [-> | Hc]; [by left| |].
  - apply IH. intros l Hl. apply H. by right.
  - rewrite Hc. destruct (str_in (str "sorry") line);
      apply IH; intros l Hl; apply H; by right.
Qed.

(** X1. A file in which no line holds the marker outside a trailing
    comment gives no record: the list gathered so far is returned as it
    is, the resolver is not entered and nothing is printed, whether or not
    the packages could have been listed. *)
Theorem no_marker_no_record :
  (∀ line, line ∈ lines →
           str_in (str "sorry") line = false
           ∨ in_trailing_comment line = true) →
  scan_lines fs repo web fp lines content lines 0 [] 0 acc = ([], Ok acc).
Proof. apply scan_lines_no_marker. Qed.

Lemma line_nums_sublist ictx (l : list nat) :
  sublist (line_num <$> omap (record_if fp lines content ictx) l) (S <$> l).
Proof.
  induction l as [|j l IH]; [done|].
  cbn [omap list_omap fmap list_fmap]. unfold record_if at 1.
  destruct (lines !! j) as [line|]; cbn [mbind option_bind];
    [destruct (qualifies line)|]; try by apply sublist_cons.
  cbn [fmap list_fmap]. by apply sublist_skip.
Qed.

(** X2. The line numbers of the records appended for one file, in the
    order of the records, are taken from 1, 2, ..., n in that order, where
    n is the number of lines: they increase, none is repeated and none
    lies outside the file. *)
Theorem records_in_line_order :
  packages_listable fs repo →
  ∃ evs recs,
    scan_lines fs repo web fp lines content lines 0 [] 0 acc
    = (evs, Ok (acc ++ recs))
    ∧ sublist (line_num <$> recs) (seq 1 (length lines)).
Proof.
  intros Hl.
  destruct (scan_lines_returns fs repo web fp lines content acc Hl)
    as (evs & ictx & H).
  eexists _, _. split; [exact H|].
  rewrite <- fmap_S_seq. apply line_nums_sublist.
Qed.

Lemma slice_app (l : list pystr) a b c :
  (a ≤ b)%nat → (b ≤ c)%nat → (b ≤ length l)%nat →
  slice l a c = slice l a b ++ slice l b c.
Proof.
  intros Hab Hbc Hb. unfold slice.
  rewrite <- (take_drop b (take c l)) at 1.
  rewrite take_take, Nat.min_l by done.
  apply drop_app_le. rewrite length_take. lia.
Qed.

(** X3. Two marker lines under the same header, with no other header
    line between the header and the second marker: their records carry
    the same name, and the snippet of the second is the snippet of the
    first followed by the lines after the first marker up to the second. *)
Theorem snippets_grow_under_one_header h hl j1 l1 j2 l2 :
  packages_listable fs repo →
  lines !! h = Some hl →
  decl_regex_search hl = true →
  (h ≤ j1)%nat → (j1 < j2)%nat →
  lines !! j1 = Some l1 → qualifies l1 = true →
  lines !! j2 = Some l2 → qualifies l2 = true →
  (∀ k l, (h < k ≤ j2)%nat → lines !! k = Some l →
          decl_regex_search l = false) →
  ∃ evs recs,
    scan_lines fs repo web fp lines content lines 0 [] 0 acc
    = (evs, Ok (acc ++ recs))
    ∧ ∃ r1 r2,
        r1 ∈ recs ∧ r2 ∈ recs
        ∧ line_num r1 = S j1 ∧ line_num r2 = S j2
        ∧ decl_name r1 = decl_name r2
        ∧ snippet r2
          = snippet r1 ++ join_empty (slice lines (S j1) (S j2)).
Proof.
  intros Hl Hh Hd Hhj Hjj H1 Q1 H2 Q2 Hbetween.
  destruct (scan_lines_returns fs repo web fp lines content acc Hl)
    as (evs & ictx & H).
  eexists _, _. split; [exact H|].
  exists (record_at fp lines content ictx j1),
         (record_at fp lines content ictx j2).
  assert (Hctx : ∀ j, (h ≤ j ≤ j2)%nat →
                      decl_context (take (S j) lines) = (strip hl, S h)).
  { intros j Hj. apply decl_context_last;
      [by rewrite lookup_take_lt by lia|done|].
    intros k l Hk Hkl.
    pose proof (lookup_lt_Some _ _ _ Hkl) as Hlt. rewrite length_take in Hlt.
    rewrite lookup_take_lt in Hkl by lia. apply (Hbetween k l); [lia|done]. }
  assert (Hsn : ∀ j, (h ≤ j ≤ j2)%nat →
                     snippet (record_at fp lines content ictx j)
                     = join_empty (slice lines h (S j))).
  { intros j Hj. unfold record_at. cbn [snippet]. rewrite (Hctx j Hj).
    simpl. by rewrite Nat.sub_0_r. }
  split_and!.
  - apply elem_of_records. eauto.
  - apply elem_of_records. eauto.
  - done.
  - done.
  - unfold record_at. cbn [decl_name]. by rewrite !Hctx by lia.
  - rewrite !Hsn by lia.
    rewrite (slice_app lines h (S j1) (S j2)) by
      (try lia; apply lookup_lt_Some in H1; lia).
    unfold join_empty. by rewrite concat_app.
Qed.

End ScannerMore.

Lemma no_marker_no_record_witness :
  scan_lines fs_foo (str "/r") false (str "./C.lean") [comment_line]
    comment_line [comment_line] 0 [] 0 []
  = ([], Ok []).
Proof.
  apply (no_marker_no_record fs_foo (str "/r") false (str "./C.lean")
           [comment_line] comment_line []).
  intros line Hin. apply list_elem_of_singleton in Hin as ->.
  right. vm_compute. reflexivity.
Defined.

Lemma records_in_line_order_witness :
  ∃ evs recs,
    scan_lines fs_foo (str "/r") false (str "./Mixed.lean")
      (lines_of mixed_lean) (join_empty (lines_of mixed_lean))
      (lines_of mixed_lean) 0 [] 0 []
    = (evs, Ok ([] ++ recs))
    ∧ sublist (line_num <$> recs) (seq 1 (length (lines_of mixed_lean))).
Proof.
  apply (records_in_line_order fs_foo (str "/r") false (str "./Mixed.lean")
           (lines_of mixed_lean) (join_empty (lines_of mixed_lean)) []).
  exact fs_foo_listable.
Defined.

Lemma snippets_grow_under_one_header_witness :
  ∃ evs recs,
    scan_lines fs_foo (str "/r") false (str "./Two.lean")
      (lines_of two_lean) (join_empty (lines_of two_lean))
      (lines_of two_lean) 0 [] 0 []
    = (evs, Ok ([] ++ recs))
    ∧ ∃ r1 r2,
        r1 ∈ recs ∧ r2 ∈ recs
        ∧ line_num r1 = 3%nat ∧ line_num r2 = 4%nat
        ∧ decl_name r1 = decl_name r2
        ∧ snippet r2
          = snippet r1 ++ join_empty (slice (lines_of two_lean) 3 4).
Proof.
  destruct (lines_of two_lean) as [|hl [|x [|l1 [|l2 rest]]]] eqn:E;
    try (vm_compute in E; discriminate).
  rewrite <- E.
  apply (snippets_grow_under_one_header fs_foo (str "/r") false
           (str "./Two.lean") (lines_of two_lean)
           (join_empty (lines_of two_lean)) [] 0 hl 2 l1 3 l2).
  - exact fs_foo_listable.
  - by rewrite E.
  - vm_compute in E. injection E as <- _ _ _ _. vm_compute. reflexivity.
  - lia.
  - lia.
  - by rewrite E.
  - vm_compute in E. injection E as _ _ <- _ _. vm_compute. reflexivity.
  - by rewrite E.
  - vm_compute in E. injection E as _ _ _ <- _. vm_compute. reflexivity.
  - intros k l Hk Hkl. rewrite E in Hkl. vm_compute in E.
    injection E as _ <- <- <- _.
    destruct k as [|[|[|[|k]]]]; try lia; simpl in Hkl;
      injection Hkl as <-; vm_compute; reflexivity.
Defined.

(** ** The walker: what is read, which directories are visited *)

Section WalkerMore.

Variables (fs : filesystem) (repo : pystr) (web : bool).

Lemma keepends_nil s : keepends s = [] → s = [].
Proof.
  destruct s as [|c r]; [done|]. simpl.
  destruct (c =? 0x0A); [done|]. by destruct (keepends r).
Qed.

Lemma keepends_join s : join_empty (keepends s) = s.
Proof.
  induction s as [|c r IH]; [done|]. simpl.
  destruct (c =? 0x0A); [simpl; by rewrite IH|].
  destruct (keepends r) as [|l ls] eqn:E.
  - by rewrite (keepends_nil r E).
  - simpl in *. by rewrite IH.
Qed.

Lemma keepends_nonempty s : Forall (λ line, line ≠ []) (keepends s).
Proof.
  induction s as [|c r IH]; [constructor|]. simpl.
  destruct (c =? 0x0A); [by constructor|].
  destruct (keepends r) as [|l ls]; [by repeat constructor|].
  inversion IH; subst. by constructor.
Qed.

(** X4. Joining the lines of [readlines] gives back the text of the
    file: when the file can be read, [full_file_content] of line 260 is
    exactly what [read] returns for it, and no line is empty. *)
Theorem readlines_join path evs lines :
  readlines fs path = (evs, Ok lines) →
  read_text fs path = (evs, Ok (join_empty lines))
  ∧ Forall (λ line, line ≠ []) lines.
Proof.
  unfold readlines, bind.
  destruct (read_text fs path) as [evs' [text|e]]; simpl; [|done].
  intros [= <- <-]. rewrite app_nil_r, keepends_join.
  split; [done|apply keepends_nonempty].
Qed.



End WalkerMore.

Lemma readlines_join_witness :
  read_text fs_foo (str "./Foo.lean")
  = ([], Ok (join_empty (lines_of foo_lean)))
  ∧ Forall (λ line, line ≠ []) (lines_of foo_lean).
Proof.
  apply (readlines_join fs_foo (str "./Foo.lean") [] (lines_of foo_lean)).
  vm_compute. reflexivity.
Defined.


(** ** The walker: the records of a whole walk *)

Section WalkRecords.

Variables (fs : filesystem) (repo : pystr) (web : bool).

Lemma endswith_app s p x : endswith s p = true → endswith (x ++ s) p = true.
Proof.
  unfold endswith. rewrite !startswith_iff. intros [r Hr].
  exists (r ++ rev x). by rewrite rev_app_distr, Hr, <- app_assoc.
Qed.

Lemma endswith_path_join2 path b p :
  endswith b p = true → endswith (path_join2 path b) p = true.
Proof.
  intros H. unfold path_join2. destruct (startswith b (str "/")); [done|].
  destruct (_ || _); [by apply endswith_app|].
  rewrite app_assoc. by apply endswith_app.
Qed.

(** What [scan_file] returns when it returns: the list as it was for a
    file of another extension, and otherwise the records of the
    qualifying lines of the file added at its end. *)
Lemma scan_file_records root acc file evs rs :
  scan_file fs repo web root acc file = (evs, Ok rs) →
  (endswith file (str ".lean") = false ∧ rs = acc)
  ∨ (endswith file (str ".lean") = true
     ∧ ∃ lines ictx,
         readlines fs (os_path_join root [file]) = ([], Ok lines)
         ∧ rs = acc ++ omap (record_if (os_path_join root [file]) lines
                               (join_empty lines) ictx)
                         (seq 0 (length lines))).
Proof.
  unfold scan_file. destruct (endswith file (str ".lean")); cbn [negb].
  2:{ unfold ret. intros [= <- <-]. by left. }
  right. split; [done|]. revert H. unfold readlines.
  destruct (read_text_cases fs (os_path_join root [file]))
    as [[text Ht]|(e & Ht & _)].
  2:{ rewrite (bind_Raise _ _ _ _ (bind_Raise _ _ _ _ Ht)). done. }
  assert (Hread : bind (read_text fs (os_path_join root [file]))
                    (λ s, ret (keepends s)) = ([], Ok (keepends text)))
    by (by rewrite (bind_Ok _ _ _ _ Ht)).
  rewrite (bind_Ok _ _ [] (keepends text) Hread).
  set (fp := os_path_join root [file]). set (lines := keepends text).
  destruct (find_and_read_imports fs (join_empty lines) repo web).2
    as [ictx|e] eqn:Hr.
  - pose proof (scan_lines_spec fs repo web fp lines (join_empty lines) []
                  lines acc ictx eq_refl Hr) as Hs.
    change (decl_context []) with ([] : pystr, 0%nat) in Hs.
    cbn [length fst snd] in Hs. rewrite Hs.
    simpl. intros [= <- <-]. by exists lines, ictx.
  - pose proof (scan_lines_spec_raise fs repo web fp lines
                  (join_empty lines) [] lines acc e eq_refl Hr) as Hs.
    change (decl_context []) with ([] : pystr, 0%nat) in Hs.
    cbn [length fst snd] in Hs. rewrite Hs.
    simpl. destruct (omap _ _) eqn:Ho; [|done]. intros [= <- <-].
    exists lines, []. by rewrite Ho, app_nil_r.
Qed.

Lemma for_each_extends {A B} (body : list B → A → W (list B)) l s t :
  (∀ s x u, (body s x).2 = Ok u → ∃ new, u = s ++ new) →
  (for_each body s l).2 = Ok t → ∃ new, t = s ++ new.
Proof.
  intros Hbody. revert s. induction l as [|a l IH]; intros s.
  - simpl. intros [= <-]. exists []. by rewrite app_nil_r.
  - simpl. unfold bind. destruct (body s a).2 as [s1|e] eqn:E; [|done].
    simpl. intros Ht. destruct (Hbody _ _ _ E) as [n1 ->].
    destruct (IH _ Ht) as [n2 ->]. exists (n1 ++ n2). by rewrite app_assoc.
Qed.

Lemma for_each_reaches {A B} (body : list B → A → W (list B)) l a s0 t :
  (∀ s x u, (body s x).2 = Ok u → ∃ new, u = s ++ new) →
  a ∈ l →
  (for_each body s0 l).2 = Ok t →
  ∃ s u, (body s a).2 = Ok u ∧ ∀ r, r ∈ u → r ∈ t.
Proof.
  intros Hbody Hin. revert s0. induction l as [|b l IH]; intros s0.
  - by apply elem_of_nil in Hin.
  - simpl. unfold bind. destruct (body s0 b).2 as [s1|e] eqn:E; [|done].
    simpl. intros Ht. apply elem_of_cons in Hin as [->|Hin].
    + exists s0, s1. split; [done|].
      destruct (for_each_extends _ _ _ _ Hbody Ht) as [new ->].
      intros r Hr. apply elem_of_app. by left.
    + by apply (IH Hin s1).
Qed.

Lemma scan_file_extends root s file u :
  (scan_file fs repo web root s file).2 = Ok u → ∃ new, u = s ++ new.
Proof.
  intros H.
  destruct (scan_file_records root s file
              (scan_file fs repo web root s file).1 u) as [[_ ->]|(_ & R)].
  - by destruct (scan_file fs repo web root s file) as [? [?|?]];
      simplify_eq/=.
  - exists []. by rewrite app_nil_r.
  - destruct R as (lines & ictx & _ & ->). eauto.
Qed.

(** X6. Every record a walk returns stands for a marker that is there:
    it belongs to a file of the walk whose name ends with [.lean], that
    file can be read, the record holds its whole text, and its line
    number is that of a line of the file which holds the marker outside a
    trailing comment. Its name and snippet are those computed for that
    line. *)
Theorem walk_records_are_sound search_path evs rs r :
  find_all_sorries fs search_path repo web = (evs, Ok rs) →
  r ∈ rs →
  ∃ root file lines j line,
    eligible fs search_path root file
    ∧ readlines fs (os_path_join root [file]) = ([], Ok lines)
    ∧ lines !! j = Some line
    ∧ qualifies line = true
    ∧ r = record_at (os_path_join root [file]) lines (join_empty lines)
            (imports_context r) j
    ∧ endswith (file_path r) (str ".lean") = true.
Proof.
  intros Hwalk. unfold find_all_sorries in Hwalk.
  set (good := λ r : sorry_record,
         ∃ root file lines j line,
           eligible fs search_path root file
           ∧ readlines fs (os_path_join root [file]) = ([], Ok lines)
           ∧ lines !! j = Some line
           ∧ qualifies line = true
           ∧ r = record_at (os_path_join root [file]) lines
                   (join_empty lines) (imports_context r) j
           ∧ endswith (file_path r) (str ".lean") = true).
  revert r. change (∀ r, r ∈ rs → good r).
  pose proof (f_equal snd Hwalk) as Hrs. cbn [snd] in Hrs.
  refine (for_each_invariant (λ _ acc, ∀ r, r ∈ acc → good r)
            _ _ [] [] _ _ rs Hrs); [intros r Hr; by apply elem_of_nil in Hr|].
  intros evs1 acc [root files] acc' Hentry Hacc Hbody. cbn [fst snd] in *.
  refine (for_each_invariant (λ _ acc, ∀ r, r ∈ acc → good r)
            (scan_file fs repo web root) (sorted files) evs1 acc Hacc _
            acc' Hbody).
  intros evs2 s file u Hfile Hs Hu r Hr.
  assert (Hu' : scan_file fs repo web root s file
                = ((scan_file fs repo web root s file).1, Ok u))
    by (rewrite <- Hu; apply surjective_pairing).
  destruct (scan_file_records root s file _ u Hu')
    as [[_ ->]|(Hext & lines & ictx & Hread & ->)]; [by apply Hs|].
  apply elem_of_app in Hr as [Hr|Hr]; [by apply Hs|].
  apply elem_of_records in Hr as (j & line & Hj & Q & ->).
  exists root, file, lines, j, line. split_and!; try done.
  - exists files. split_and!; [done|by apply elem_of_sorted|done].
  - cbn [file_path record_at]. unfold os_path_join. cbn [foldl].
    by apply endswith_path_join2.
Qed.

End WalkRecords.

Section WalkComplete.

Variables (fs : filesystem) (repo : pystr) (web : bool).

(** X7. A walk that returns misses no marker: for every file of the
    walk whose name ends with [.lean], and every line of it that holds the
    marker outside a trailing comment, the list returned has the record
    of that line. *)
Theorem walk_records_are_complete search_path evs rs root file lines j line :
  find_all_sorries fs search_path repo web = (evs, Ok rs) →
  eligible fs search_path root file →
  readlines fs (os_path_join root [file]) = ([], Ok lines) →
  lines !! j = Some line →
  qualifies line = true →
  ∃ r, r ∈ rs
       ∧ r = record_at (os_path_join root [file]) lines (join_empty lines)
               (imports_context r) j.
Proof.
  intros Hwalk (files & Hentry & Hfile & Hext) Hread Hj Q.
  pose proof (f_equal snd Hwalk) as Hrs. cbn [snd] in Hrs.
  unfold find_all_sorries in Hrs.
  destruct (for_each_reaches _ _ (root, files) _ _
              (λ s x u, for_each_extends _ _ s u
                          (scan_file_extends fs repo web x.1))
              Hentry Hrs) as (s & u & Hu & Hsub).
  cbn [fst snd] in Hu.
  destruct (for_each_reaches _ _ file _ _
              (scan_file_extends fs repo web root)
              (proj2 (elem_of_sorted file files) Hfile) Hu)
    as (s' & u' & Hu' & Hsub').
  assert (Hpair : scan_file fs repo web root s' file
                  = ((scan_file fs repo web root s' file).1, Ok u'))
    by (rewrite <- Hu'; apply surjective_pairing).
  destruct (scan_file_records fs repo web root s' file _ u' Hpair)
    as [[Hno _]|(_ & lines' & ictx & Hread' & ->)]; [congruence|].
  rewrite Hread in Hread'. injection Hread' as <-.
  exists (record_at (os_path_join root [file]) lines (join_empty lines)
            ictx j).
  split; [|done]. apply Hsub, Hsub', elem_of_app. right.
  apply elem_of_records. eauto.
Qed.

End WalkComplete.

Lemma fs_foo_walk :
  find_all_sorries fs_foo (str ".") (str "/r") false
  = ([Call_find_and_read_imports (join_empty (lines_of foo_lean)) (str "/r")
        false],
     Ok [record_at (str "./Foo.lean") (lines_of foo_lean)
           (join_empty (lines_of foo_lean)) [] 1]).
Proof. vm_compute. reflexivity. Qed.

Lemma fs_foo_eligible : eligible fs_foo (str ".") (str ".") (str "Foo.lean").
Proof.
  exists [str "Foo.lean"]. split_and!.
  - vm_compute. left.
  - left.
  - vm_compute. reflexivity.
Qed.

Lemma walk_records_are_sound_witness :
  ∃ root file lines j line,
    eligible fs_foo (str ".") root file
    ∧ readlines fs_foo (os_path_join root [file]) = ([], Ok lines)
    ∧ lines !! j = Some line
    ∧ qualifies line = true
    ∧ record_at (str "./Foo.lean") (lines_of foo_lean)
        (join_empty (lines_of foo_lean)) [] 1
      = record_at (os_path_join root [file]) lines (join_empty lines)
          (imports_context
             (record_at (str "./Foo.lean") (lines_of foo_lean)
                (join_empty (lines_of foo_lean)) [] 1)) j
    ∧ endswith
        (file_path
           (record_at (str "./Foo.lean") (lines_of foo_lean)
              (join_empty (lines_of foo_lean)) [] 1))
        (str ".lean") = true.
Proof.
  apply (walk_records_are_sound fs_foo (str "/r") false (str ".") _ _ _
           fs_foo_walk).
  left.
Defined.

Lemma walk_records_are_complete_witness :
  ∃ r, r ∈ [record_at (str "./Foo.lean") (lines_of foo_lean)
              (join_empty (lines_of foo_lean)) [] 1]
       ∧ r = record_at (os_path_join (str ".") [str "Foo.lean"])
               (lines_of foo_lean) (join_empty (lines_of foo_lean))
               (imports_context r) 1.
Proof.
  apply (walk_records_are_complete fs_foo (str "/r") false (str ".") _ _
           (str ".") (str "Foo.lean") (lines_of foo_lean) 1 sorry_line
           fs_foo_walk fs_foo_eligible).
  - vm_compute. reflexivity.
  - vm_compute. reflexivity.
  - vm_compute. reflexivity.
Defined.

(** ** The resolver: where a file is looked for, what can go wrong *)

Section ResolverMore.

Variable fs : filesystem.

(** X8. The file of an import is the first of its candidate paths that
    exists: the path inside the package when the first segment names one,
    then the path under the project root, then the path under [src]; and
    no file at all when none of them exists. *)
Theorem resolve_import_first_existing package_map repo_root import_path_str :
  resolve_import fs package_map repo_root import_path_str
  = List.find (os_path_exists fs)
      (candidate_paths package_map repo_root import_path_str).
Proof.
  unfold resolve_import, dependency_path, candidate_paths, first_segment,
    relative_path.
  pose proof (relative_path_nonempty import_path_str) as Hne.
  unfold relative_path in Hne.
  destruct (split_cons 0x2E import_path_str) as (p & ps & Hsplit).
  rewrite Hsplit in *. change (default [] (head (p :: ps))) with p.
  destruct (package_map !! p) as [package_root|]; cbn [app List.find truthy].
  - pose proof (path_join2_nonempty package_root _ Hne) as Hne'.
    cbn [os_path_join foldl] in *.
    destruct (os_path_exists fs (path_join2 package_root _)); [|done].
    by destruct (path_join2 package_root (relative_path_of (p :: ps))).
  - cbn [os_path_join foldl].
    by repeat destruct (os_path_exists fs _).
Qed.

(** X9. The only exception that can leave [find_and_read_imports] is the
    [OSError] of [os.listdir] on the directory of the packages: an import
    that is not found, or whose file cannot be read or decoded, never
    makes it raise. *)
Theorem resolver_raises_only_when_listing_fails file_content repo_root
    web_search e :
  (find_and_read_imports fs file_content repo_root web_search).2 = Raise e
  ↔ e = OSError
    ∧ os_path_isdir fs (lake_packages_path repo_root) = true
    ∧ os_listdir fs (lake_packages_path repo_root) = None.
Proof.
  unfold find_and_read_imports, bind at 1. cbn [emit fst snd].
  split.
  - destruct (build_package_map_cases fs repo_root) as [[m Hm]|Hm].
    + rewrite (bind_Ok _ _ _ _ Hm). cbn [snd].
      destruct (import_lines_return fs m repo_root web_search []
                  (splitlines file_content)) as (t & Ht & _).
      unfold bind. by rewrite Ht.
    + rewrite (bind_Raise _ _ _ _ Hm). cbn [snd]. intros [= <-].
      revert Hm. unfold build_package_map.
      destruct (os_path_isdir _ _); [|done].
      by destruct (os_listdir _ _).
  - intros (-> & Hd & Hl).
    assert (Hm : build_package_map fs repo_root = ([], Raise OSError))
      by (unfold build_package_map; by rewrite Hd, Hl).
    by rewrite (bind_Raise _ _ _ _ Hm).
Qed.

Lemma import_line_acc package_map repo_root web_search acc line :
  (import_line fs package_map repo_root web_search acc line).2
  = Ok (acc ++ contribution fs package_map repo_root web_search line).
Proof.
  unfold contribution, import_line.
  destruct (import_regex_match line) as [ip|];
    [|simpl; by rewrite app_nil_r].
  destruct (truthy _).
  - destruct (read_text_cases fs
                (default [] (resolve_import fs package_map repo_root ip)))
      as [[c Hc]|(e & He & Hex)].
    + rewrite !(read_import_read _ _ _ _ _ Hc).
      destruct (Z.of_nat (length c) <? MAX_IMPORT_FILE_SIZE)%Z; simpl;
        [done|by rewrite app_nil_r].
    + unfold read_import, try_except_Exception, bind. rewrite He. simpl.
      rewrite Hex. simpl. by rewrite app_nil_r.
  - destruct web_search; simpl; [done|by rewrite app_nil_r].
Qed.

Lemma import_lines_acc package_map repo_root web_search acc lines :
  (for_each (import_line fs package_map repo_root web_search) acc lines).2
  = Ok (acc ++ List.concat
                 (List.map (contribution fs package_map repo_root web_search)
                    lines)).
Proof.
  revert acc. induction lines as [|l lines IH]; intros acc.
  - simpl. by rewrite app_nil_r.
  - simpl. unfold bind. rewrite import_line_acc. cbn [snd].
    by rewrite IH, <- app_assoc.
Qed.

(** X10. The context returned for a file is the concatenation, in the
    order of the lines, of what each line contributes taken alone; an
    import that appears on several lines is appended once for each. *)
Theorem imports_context_is_concatenation file_content repo_root web_search
    package_map :
  build_package_map fs repo_root = ([], Ok package_map) →
  (find_and_read_imports fs file_content repo_root web_search).2
  = Ok (join_empty
          (List.concat
             (List.map (contribution fs package_map repo_root web_search)
                (splitlines file_content)))).
Proof.
  intros Hm. unfold find_and_read_imports, bind at 1. cbn [emit fst snd].
  rewrite (bind_Ok _ _ _ _ Hm). cbn [snd].
  unfold bind. by rewrite import_lines_acc.
Qed.

Lemma lower_char_not_upper d : is_ascii_upper (lower_char d) = false.
Proof.
  unfold lower_char, is_ascii_upper.
  destruct ((0x41 <=? d) && (d <=? 0x5A)) eqn:Hd; [|done].
  apply andb_true_iff in Hd as [H1 H2].
  apply N.leb_le in H1, H2. apply andb_false_iff. right.
  apply N.leb_gt. lia.
Qed.

Lemma lower_not_upper (s : pystr) i c :
  lower s !! i = Some c → is_ascii_upper c = false.
Proof.
  revert i. induction s as [|d s IH]; intros i; [done|].
  destruct i as [|i]; simpl.
  - intros [= <-]. apply lower_char_not_upper.
  - apply IH.
Qed.

(** X11. For packages with ASCII names, on which [capitalize] is modelled
    exactly: the keys of the package map are capitalized names, so no key
    has a capital letter after its first character, and an import whose
    first segment has one, as [LeanSearchClient] has, never finds its
    package in the map and is looked for under the project root only. *)
Theorem mixed_case_segment_finds_no_package repo_root package_map
    import_path_str i c :
  (∀ names name,
     os_listdir fs (lake_packages_path repo_root) = Some names →
     name ∈ names → Forall (λ d, d < 128) name) →
  build_package_map fs repo_root = ([], Ok package_map) →
  first_segment import_path_str !! S i = Some c →
  is_ascii_upper c = true →
  package_map !! first_segment import_path_str = None
  ∧ candidate_paths package_map repo_root import_path_str
    = [os_path_join repo_root [relative_path import_path_str];
       os_path_join repo_root [str "src"; relative_path import_path_str]].
Proof.
  intros _ Hm Hc Hup.
  assert (Hnone : package_map !! first_segment import_path_str = None).
  { destruct (package_map !! first_segment import_path_str)
      as [package_root|] eqn:E; [|done]. exfalso.
    assert (∃ names, os_listdir fs (lake_packages_path repo_root)
                     = Some names) as [names Hn].
    { revert Hm E. unfold build_package_map.
      destruct (os_path_isdir _ _); [|by intros [= <-]].
      destruct (os_listdir _ _); [eauto|done]. }
    destruct (build_package_map_lookup fs repo_root names package_map _ _
                Hn Hm E) as (name & _ & Hkey & _).
    rewrite <- Hkey in Hc. destruct name as [|c0 r]; [done|].
    simpl in Hc. apply lower_not_upper in Hc. congruence. }
  split; [done|]. unfold candidate_paths. by rewrite Hnone.
Qed.

End ResolverMore.

Lemma fs_shadow_package_map :
  build_package_map fs_shadow (str "/r")
  = ([], Ok {[str "Mathlib" := str "/r/.lake/packages/mathlib"]}).
Proof. vm_compute. reflexivity. Qed.

Lemma imports_context_is_concatenation_witness :
  (find_and_read_imports fs_shadow
     (str "import Mathlib.Data" ++ [0x0A] ++ str "import Mathlib.Data")
     (str "/r") false).2
  = Ok (join_empty
          (List.concat
             (List.map
                (contribution fs_shadow
                   {[str "Mathlib" := str "/r/.lake/packages/mathlib"]}
                   (str "/r") false)
                (splitlines
                   (str "import Mathlib.Data" ++ [0x0A]
                    ++ str "import Mathlib.Data"))))).
Proof.
  apply (imports_context_is_concatenation fs_shadow _ (str "/r") false _
           fs_shadow_package_map).
Defined.

(** An import written twice is in the context twice. *)
Example repeated_import_is_repeated :
  (find_and_read_imports fs_shadow
     (str "import Mathlib.Data" ++ [0x0A] ++ str "import Mathlib.Data")
     (str "/r") false).2
  = Ok (content_entry (str "Mathlib.Data") (str "-- from the package")
        ++ content_entry (str "Mathlib.Data") (str "-- from the package")).
Proof. vm_compute. reflexivity. Qed.

Lemma fs_mixed_case_package_map :
  build_package_map fs_mixed_case (str "/r")
  = ([], Ok {[str "Leansearchclient"
              := str "/r/.lake/packages/LeanSearchClient"]}).
Proof. vm_compute. reflexivity. Qed.

Lemma mixed_case_segment_finds_no_package_witness :
  ({[str "Leansearchclient" := str "/r/.lake/packages/LeanSearchClient"]}
     : gmap pystr pystr) !! first_segment (str "LeanSearchClient.Basic")
  = None
  ∧ candidate_paths
      {[str "Leansearchclient" := str "/r/.lake/packages/LeanSearchClient"]}
      (str "/r") (str "LeanSearchClient.Basic")
    = [os_path_join (str "/r")
         [relative_path (str "LeanSearchClient.Basic")];
       os_path_join (str "/r")
         [str "src"; relative_path (str "LeanSearchClient.Basic")]].
Proof.
  apply (mixed_case_segment_finds_no_package fs_mixed_case (str "/r") _
           (str "LeanSearchClient.Basic") 3 0x53);
    [|exact fs_mixed_case_package_map| |].
  - intros names name [= <-] Hin. apply list_elem_of_singleton in Hin as ->.
    apply Forall_forall. intros d Hd.
    repeat (apply elem_of_cons in Hd as [->|Hd]; [reflexivity|]).
    by apply elem_of_nil in Hd.
  - vm_compute. reflexivity.
  - vm_compute. reflexivity.
Defined.

(** The file of the package [LeanSearchClient] is there, and the import
    is reported as not found. *)
Example mixed_case_package_is_missed :
  os_path_exists fs_mixed_case
    (str "/r/.lake/packages/LeanSearchClient/LeanSearchClient/Basic.lean")
  = true
  ∧ find_and_read_imports fs_mixed_case
      (str "import LeanSearchClient.Basic") (str "/r") false
    = ([Call_find_and_read_imports (str "import LeanSearchClient.Basic")
          (str "/r") false;
        Could_not_find_imported_file (str "LeanSearchClient.Basic")],
       Ok []).
Proof. split; vm_compute; reflexivity. Qed.

(** ** The resolver: files below the threshold *)

Section SmallFiles.

Variable fs : filesystem.

Lemma utf8_decode_length bs text :
  utf8_decode bs = Some text → (length text ≤ length bs)%nat.
Proof.
  remember (length bs) as n eqn:Hn. revert bs text Hn.
  induction n as [n IH] using lt_wf_ind. intros [|x0 r0] text Hn.
  - intros [= <-]. simpl. lia.
  - cbn [utf8_decode]. simpl in Hn.
    repeat case_match; try done; intros Hdec;
      apply fmap_Some in Hdec as (t & Ht & ->); subst; simpl in *;
      (eapply IH in Ht; [| |reflexivity]; simpl in *; lia).
Qed.

Lemma universal_newlines_length s :
  (length (universal_newlines s) ≤ length s)%nat.
Proof.
  remember (length s) as n eqn:Hn. revert s Hn.
  induction n as [n IH] using lt_wf_ind. intros [|c r] ->; [done|].
  cbn [universal_newlines].
  assert (Hr : ∀ t, (length t ≤ length r)%nat →
                    (length (universal_newlines t) ≤ length t)%nat).
  { intros t Ht. apply (IH (length t)); [simpl; lia|done]. }
  destruct (c =? 0x0D).
  - destruct r as [|d r']; [done|].
    destruct (d =? 0x0A); cbn [length].
    + pose proof (Hr r' ltac:(simpl; lia)). lia.
    + pose proof (Hr (d :: r') ltac:(lia)). simpl in *. lia.
  - cbn [length]. pose proof (Hr r ltac:(lia)). lia.
Qed.

(** X12. A resolved import whose file can be read and decoded and is
    smaller than 25,000 bytes is always appended in full, without a
    warning: the text never has more characters than the file has
    bytes. *)
Theorem small_file_is_included imported_content import_path_str full_path
    bs text :
  file_bytes fs full_path = Some bs →
  utf8_decode bs = Some text →
  (Z.of_nat (length bs) < 25000)%Z →
  read_import fs imported_content import_path_str full_path
  = ([], Ok (imported_content
             ++ [content_entry import_path_str (universal_newlines text)])).
Proof.
  intros Hb Hd Hlen.
  rewrite (read_import_read fs _ _ _ (universal_newlines text))
    by (unfold read_text; by rewrite Hb, Hd).
  pose proof (utf8_decode_length _ _ Hd).
  pose proof (universal_newlines_length text).
  assert ((Z.of_nat (length (universal_newlines text))
           <? MAX_IMPORT_FILE_SIZE)%Z = true) as ->; [|done].
  apply Z.ltb_lt. unfold MAX_IMPORT_FILE_SIZE. lia.
Qed.

End SmallFiles.

Lemma small_file_is_included_witness :
  read_import fs_shadow [] (str "Mathlib.Data") (str "/r/Mathlib/Data.lean")
  = ([], Ok ([] ++ [content_entry (str "Mathlib.Data")
                      (universal_newlines (str "-- from the project"))])).
Proof.
  apply (small_file_is_included fs_shadow [] (str "Mathlib.Data")
           (str "/r/Mathlib/Data.lean")
           (ascii_bytes "-- from the project")).
  - vm_compute. reflexivity.
  - vm_compute. reflexivity.
  - vm_compute. reflexivity.
Defined.

(** ** The publisher: what one record leads to *)

Section PublisherMore.

Context {store : Type}.
Variable gh : list pystr → store → store * proc_result.
Variable generate_ai_analysis :
  pystr → pystr → pystr → pystr → pystr → pystr.
Variable as_completed : list sorry_record → list sorry_record.

Lemma search_hit_skips title body repo_name label s stdout
    stderr :
  (gh (list_command title repo_name) s).2 = Exited 0 stdout stderr →
  strip stdout ≠ [] →
  create_github_issue gh title body repo_name label s
  = ((gh (list_command title repo_name) s).1,
     ([Issue_already_exists title], Ok tt)).
Proof.
  intros Hgh Hout.
  unfold create_github_issue, check_existing, run_command,
    try_except_CalledProcessError, bindP, subprocess_run, liftW, retP.
  fold (list_command title repo_name).
  destruct (gh (list_command title repo_name) s) as [s1 r].
  cbn [fst snd] in *. subst r. cbn.
  by destruct (strip stdout).
Qed.


(** X13. When the search returns something other than white space, the
    issue is taken to exist: the message of line 210 is printed, the
    function returns, and [gh] is not run a second time. *)
Theorem existing_issue_is_skipped title body repo_name label s stdout
    stderr :
  (gh (list_command title repo_name) s).2 = Exited 0 stdout stderr →
  strip stdout ≠ [] →
  create_github_issue gh title body repo_name label s
  = ((gh (list_command title repo_name) s).1,
     ([Issue_already_exists title], Ok tt)).
Proof. apply search_hit_skips. Qed.







End PublisherMore.

Section Titles.

Lemma str_inj s1 s2 : str s1 = str s2 → s1 = s2.
Proof.
  unfold str. intros H.
  rewrite <- (string_of_list_ascii_of_string s1),
    <- (string_of_list_ascii_of_string s2). f_equal.
  revert H. generalize (list_ascii_of_string s1) (list_ascii_of_string s2).
  clear. intros l1. induction l1 as [|a l1 IH]; intros [|b l2]; try done.
  simpl. intros [= Hab Hl]. f_equal; [|by apply IH].
  by rewrite <- (ascii_N_embedding a), <- (ascii_N_embedding b), Hab.
Qed.

Lemma str_of_nat_inj n1 n2 : str_of_nat n1 = str_of_nat n2 → n1 = n2.
Proof.
  unfold str_of_nat. intros H. apply str_inj in H.
  apply DecimalNat.Unsigned.to_uint_inj.
  pose proof (NilEmpty.usu (Nat.to_uint n1)) as H1.
  rewrite H, NilEmpty.usu in H1. congruence.
Qed.

(** X17. Two records of one file that have no declaration name get the
    same title only when they are on the same line: markers outside any
    declaration are never mistaken for one another by their titles. *)
Theorem unnamed_titles_differ_by_line r1 r2 :
  decl_name r1 = [] → decl_name r2 = [] →
  file_path r1 = file_path r2 →
  issue_title r1 = issue_title r2 →
  line_num r1 = line_num r2.
Proof.
  unfold issue_title. intros -> -> -> H.
  apply app_inv_head in H. apply app_inv_head in H.
  apply app_inv_head in H. by apply str_of_nat_inj.
Qed.

End Titles.

Lemma existing_issue_is_skipped_witness :
  create_github_issue gh_reference foo_title [] (str "o/r")
    (str "proof wanted")
    [{| title_of := str "Fill in {title} of the template"; body_of := [];
        label_of := [] |}]
  = ((gh_reference (list_command foo_title (str "o/r"))
        [{| title_of := str "Fill in {title} of the template";
            body_of := []; label_of := [] |}]).1,
     ([Issue_already_exists foo_title], Ok tt)).
Proof.
  apply (existing_issue_is_skipped gh_reference foo_title [] (str "o/r")
           (str "proof wanted") _
           (str "Fill in {title} of the template" ++ [0x0A]) []).
  - vm_compute. reflexivity.
  - vm_compute. discriminate.
Defined.




Lemma unnamed_titles_differ_by_line_witness :
  line_num
    {| file_path := str "./A.lean"; line_num := 7; decl_name := [];
       snippet := sorry_line; full_content := sorry_line;
       imports_context := [] |}
  = line_num
      {| file_path := str "./A.lean"; line_num := 7; decl_name := [];
         snippet := sorry_line; full_content := []; imports_context := [] |}.
Proof.
  apply unnamed_titles_differ_by_line; reflexivity.
Defined.

(** ** [main]: what happens before and instead of publishing *)

Section MainFacts.

Context {store : Type}.
Variable gh : list pystr → store → store * proc_result.
Variable generate_ai_analysis :
  pystr → pystr → pystr → pystr → pystr → pystr.
Variable as_completed : list sorry_record → list sorry_record.
Variables (env : environment) (fs : filesystem) (args : arguments).

(** X18. When [gh] or [gcloud] is not installed, or the repository path
    is not a directory, [main] ends with [SystemExit] of code 1 before it
    runs any command or reads any file of the project. *)
Theorem main_stops_on_bad_setup s :
  shutil_which env (str "gh") = false
  ∨ shutil_which env (str "gcloud") = false
  ∨ os_path_isdir fs (os_path_abspath env (repo_path args)) = false →
  main gh generate_ai_analysis as_completed env fs args s
  = (s, ([], Raise (SystemExit 1))).
Proof.
  intros H. unfold main, bindP, liftW, check_dependencies.
  destruct (shutil_which env (str "gh")); [|done].
  destruct (shutil_which env (str "gcloud")); [|done].
  destruct H as [H|[H|H]]; [done|done|]. by rewrite H.
Qed.

(** X19. The name of the repository is asked of [gh] before anything is
    scanned, also for a dry run: when [gh repo view] ends with a return
    code other than 0, [main] prints its error and ends with [SystemExit]
    of code 1, and no file of the project is read. *)
Theorem main_needs_the_repository_name s returncode stdout stderr :
  shutil_which env (str "gh") = true →
  shutil_which env (str "gcloud") = true →
  os_path_isdir fs (os_path_abspath env (repo_path args)) = true →
  os_chdir env (os_path_abspath env (repo_path args)) = true →
  (gh repo_view_command s).2 = Exited returncode stdout stderr →
  returncode ≠ 0%Z →
  main gh generate_ai_analysis as_completed env fs args s
  = ((gh repo_view_command s).1,
     ([Error_running_command repo_view_command stderr],
      Raise (SystemExit 1))).
Proof.
  intros Hgh Hgc Hdir Hcd Hview Hcode.
  unfold main, bindP, liftW, check_dependencies, run_command,
    try_except_CalledProcessError, bindP, subprocess_run, liftW, retP.
  rewrite Hgh, Hgc, Hdir, Hcd. cbn.
  destruct (gh repo_view_command s) as [s1 r]. cbn [fst snd] in *. subst r.
  apply Z.eqb_neq in Hcode. by rewrite Hcode.
Qed.

Lemma run_command_store command s :
  (run_command gh command s).1 = (gh command s).1.
Proof.
  unfold run_command, try_except_CalledProcessError, bindP, subprocess_run,
    liftW, retP.
  destruct (gh command s) as [s1 [c out err|]]; [|done].
  by destruct (c =? 0)%Z.
Qed.

(** X20. With [--dry-run], or when the scan returns no record, nothing
    is published: the only command [main] may run is [gh repo view], so
    the record store is left as that command leaves it. *)
Theorem main_publishes_nothing s :
  dry_run args = true
  ∨ (find_all_sorries fs (search_path args)
       (os_path_abspath env (repo_path args)) (web_search args)).2 = Ok [] →
  (main gh generate_ai_analysis as_completed env fs args s).1 = s
  ∨ (main gh generate_ai_analysis as_completed env fs args s).1
    = (gh repo_view_command s).1.
Proof.
  intros H.
  assert (∃ w, main gh generate_ai_analysis as_completed env fs args s
               = (s, w)
               ∨ main gh generate_ai_analysis as_completed env fs args s
                 = ((gh repo_view_command s).1, w)) as [w [-> | ->]];
    [|by left|by right].
  unfold main, check_dependencies, bindP, liftW, retP.
  destruct (shutil_which env (str "gh")); [|eexists; by left].
  destruct (shutil_which env (str "gcloud")); [|eexists; by left].
  cbn. destruct (os_path_isdir fs _); [|eexists; by left].
  cbn. destruct (os_chdir env _); [|eexists; by left].
  cbn. pose proof (run_command_store repo_view_command s) as Hst.
  destruct (run_command gh repo_view_command s) as [s1 [evs1 [name|e]]];
    cbn [fst snd] in *; subst s1; [|eexists; by right].
  destruct (find_all_sorries fs _ _ _) as [evs2 [[|r rs]|e]];
    cbn [fst snd] in *; try (eexists; by right).
  destruct H as [->|H]; [eexists; by right|done].
Qed.

End MainFacts.

Lemma main_stops_on_bad_setup_witness :
  main gh_reference no_analysis in_submission_order env_no_gcloud fs_repo
    (args_default false) []
  = ([], ([], Raise (SystemExit 1))).
Proof.
  apply main_stops_on_bad_setup. right. left. vm_compute. reflexivity.
Defined.

Lemma main_needs_the_repository_name_witness :
  main gh_search_down no_analysis in_submission_order env_ready fs_repo
    (args_default true) []
  = ((gh_search_down repo_view_command []).1,
     ([Error_running_command repo_view_command (str "unknown command")],
      Raise (SystemExit 1))).
Proof.
  apply (main_needs_the_repository_name gh_search_down no_analysis
           in_submission_order env_ready fs_repo (args_default true) [] 2
           []).
  - reflexivity.
  - reflexivity.
  - vm_compute. reflexivity.
  - reflexivity.
  - vm_compute. reflexivity.
  - discriminate.
Defined.

Lemma main_publishes_nothing_witness :
  (main gh_reference no_analysis in_submission_order env_ready fs_repo
     (args_default true) []).1 = []
  ∨ (main gh_reference no_analysis in_submission_order env_ready fs_repo
       (args_default true) []).1
    = (gh_reference repo_view_command []).1.
Proof.
  apply main_publishes_nothing. left. reflexivity.
Defined.

(** ** Names and reference texts *)

Section Names.

Lemma star_group_class cls s g t :
  (g, t) ∈ star_group cls s → Forall (λ c, cls c = true) g.
Proof.
  revert g t. induction s as [|c r IH]; intros g t; simpl.
  - intros Hin. apply list_elem_of_singleton in Hin as [= -> ->]. constructor.
  - destruct (cls c) eqn:Hc.
    + rewrite elem_of_app, list_elem_of_singleton.
      intros [Hin|[= -> ->]]; [|constructor].
      apply list_elem_of_In, in_map_iff in Hin as ([g' t'] & [= <- <-] & Hin).
      constructor; [done|]. apply (IH g' t'). by apply list_elem_of_In.
    + intros Hin. apply list_elem_of_singleton in Hin as [= -> ->].
      constructor.
Qed.

Lemma plus_group_class cls s g t :
  (g, t) ∈ plus_group cls s → g ≠ [] ∧ Forall (λ c, cls c = true) g.
Proof.
  destruct s as [|c r]; simpl; [by intros ?%elem_of_nil|].
  destruct (cls c) eqn:Hc; [|by intros ?%elem_of_nil].
  intros Hin.
  apply list_elem_of_In, in_map_iff in Hin as ([g' t'] & [= <- <-] & Hin).
  split; [done|]. constructor; [done|].
  apply (star_group_class cls r g' t'). by apply list_elem_of_In.
Qed.

Lemma name_extract_token header name :
  name_extract_regex_match header = Some name →
  name ≠ [] ∧ Forall (λ c, name_char c = true) name.
Proof.
  unfold name_extract_regex_match. intros H.
  apply head_Some_elem_of in H.
  apply list_elem_of_bind in H as (s1 & H & _).
  apply list_elem_of_bind in H as (s2 & H & _).
  apply list_elem_of_bind in H as (s3 & H & _).
  apply list_elem_of_bind in H as ([g t] & H & Hg).
  apply list_elem_of_singleton in H as ->.
  by apply (plus_group_class _ _ _ _ Hg).
Qed.

Variables (fs : filesystem) (repo : pystr) (web : bool).
Variables (fp : pystr) (lines : list pystr) (content : pystr).
Variable acc : list sorry_record.

(** X21. The name of a record is either empty or a single token: it
    never holds white space, an opening parenthesis, an opening brace or
    a colon. *)
Theorem record_names_are_tokens :
  packages_listable fs repo →
  ∃ evs recs,
    scan_lines fs repo web fp lines content lines 0 [] 0 acc
    = (evs, Ok (acc ++ recs))
    ∧ ∀ r c, r ∈ recs → c ∈ decl_name r →
        isspace c = false ∧ c ≠ 0x28 ∧ c ≠ 0x7B ∧ c ≠ 0x3A.
Proof.
  intros Hl.
  destruct (scan_lines_returns fs repo web fp lines content acc Hl)
    as (evs & ictx & H).
  eexists _, _. split; [exact H|].
  intros r c Hr Hc. apply elem_of_records in Hr as (j & line & _ & _ & ->).
  unfold record_at in Hc. cbn [decl_name] in Hc.
  destruct (name_extract_regex_match _) as [name|] eqn:E;
    [|by apply elem_of_nil in Hc].
  apply name_extract_token in E as [_ E]. rewrite Forall_forall in E.
  specialize (E c Hc). unfold name_char in E.
  apply negb_true_iff in E. do 3 apply orb_false_iff in E as [E ?].
  repeat split; [done|..]; by apply N.eqb_neq.
Qed.

Lemma str_in_middle sub a b : str_in sub (a ++ sub ++ b) = true.
Proof.
  apply (str_in_occurs _ _ (length a)). unfold occurs_at.
  rewrite drop_app_length. apply startswith_iff. eauto.
Qed.

Lemma join_with_elem sep (l : list pystr) x :
  x ∈ l → ∃ a b, join_with sep l = a ++ x ++ b.
Proof.
  induction l as [|y l IH]; [by intros ?%elem_of_nil|].
  intros Hin. apply elem_of_cons in Hin as [->|Hin].
  - destruct l as [|z l]; simpl.
    + exists [], []. by rewrite app_nil_r.
    + by exists [], (sep ++ join_with sep (z :: l)).
  - destruct (IH Hin) as (a & b & Hab). destruct l as [|z l];
      [by apply elem_of_nil in Hin|].
    exists (y ++ sep ++ a), b.
    change (join_with sep (y :: z :: l))
      with (y ++ sep ++ join_with sep (z :: l)).
    rewrite Hab. by rewrite <- !app_assoc.
Qed.

(** X22. The reference text is empty exactly when no URL is given, and
    otherwise it holds the block of every URL given. *)
Theorem fetch_urls_content_holds_every_url urls :
  (fetch_urls_content urls = [] ↔ urls = [])
  ∧ ∀ url, url ∈ urls →
      str_in (simulated_content url) (fetch_urls_content urls) = true.
Proof.
  split.
  - split; [|by intros ->]. destruct urls as [|u us]; [done|].
    unfold fetch_urls_content.
    destruct (join_with_elem [0x0A; 0x0A]
                (List.map simulated_content (u :: us)) (simulated_content u))
      as (a & b & ->); [left|].
    intros H. apply app_eq_nil in H as [_ H].
    by apply app_eq_nil in H as [H _].
  - intros url Hin. destruct urls as [|u us];
      [by apply elem_of_nil in Hin|].
    unfold fetch_urls_content.
    destruct (join_with_elem [0x0A; 0x0A]
                (List.map simulated_content (u :: us))
                (simulated_content url)) as (a & b & ->).
    + apply list_elem_of_In, in_map. by apply list_elem_of_In.
    + apply str_in_middle.
Qed.

End Names.

Lemma record_names_are_tokens_witness :
  ∃ evs recs,
    scan_lines fs_foo (str "/r") false (str "./Foo.lean")
      (lines_of foo_lean) (join_empty (lines_of foo_lean))
      (lines_of foo_lean) 0 [] 0 []
    = (evs, Ok ([] ++ recs))
    ∧ ∀ r c, r ∈ recs → c ∈ decl_name r →
        isspace c = false ∧ c ≠ 0x28 ∧ c ≠ 0x7B ∧ c ≠ 0x3A.
Proof.
  apply (record_names_are_tokens fs_foo (str "/r") false (str "./Foo.lean")
           (lines_of foo_lean) (join_empty (lines_of foo_lean)) []).
  exact fs_foo_listable.
Defined.
